(** * News recommendation trainer and BATM model: a shallow embedding

    The development follows the two source files

    - [modules/trainer/mind_rs_trainer.py] (class [MindRSTrainer]):
      the training epoch loop, the impression evaluation loop and the
      weight-dump writer;
    - [news_recommendation/models/nrs/batm.py] (class [BATMRSModel]):
      topic extraction and the user encoder.

    Python values are modelled by their mathematical counterparts: ints by
    [Z], the float [valid_interval] by a binary64 [float], dictionaries by
    [gmap], exceptions by an error monad.  Collaborators that live outside
    the two files (the network layers, the metric functions, the data
    loaders, [gather_dict], [get_news_embeds]) are section variables. *)

From Stdlib Require Import ZArith Reals Lra PrimFloat FloatOps SpecFloat Uint63.
From stdpp Require Import gmap strings list fin_maps.

(** * Python prelude *)

Module Py.

(** The built-in exception classes the two files can meet. *)
Inductive exc_class :=
| BaseException | Exception
| LookupError | KeyError | IndexError
| RuntimeError | NotImplementedError | RecursionError
| ArithmeticError | ZeroDivisionError | OverflowError
| ValueError.

#[global] Instance exc_class_eq_dec : EqDecision exc_class.
Proof. solve_decision. Defined.

(** Direct base class, as in the built-in hierarchy. *)
Definition base (c : exc_class) : option exc_class :=
  match c with
  | BaseException => None
  | Exception => Some BaseException
  | LookupError | RuntimeError | ArithmeticError | ValueError => Some Exception
  | KeyError | IndexError => Some LookupError
  | NotImplementedError | RecursionError => Some RuntimeError
  | ZeroDivisionError | OverflowError => Some ArithmeticError
  end.

(** The hierarchy is four levels deep, so four steps reach the root. *)
Fixpoint ancestors (fuel : nat) (c : exc_class) : list exc_class :=
  match fuel with
  | O => [c]
  | S n => c :: match base c with Some p => ancestors n p | None => [] end
  end.

Definition issubclass (c d : exc_class) : bool :=
  bool_decide (d ∈ ancestors 4 c).

(** A class object has neither [__bool__] nor [__len__]: it is truthy. *)
Definition class_truthy (c : exc_class) : bool := true.

(** [x or y] on class objects: [x] when [x] is truthy, else [y]. *)
Definition py_or (x y : exc_class) : exc_class :=
  if class_truthy x then x else y.

(** Outcome of a computation that may raise. *)
Inductive result (A : Type) :=
| Ok (a : A)
| Raise (c : exc_class).
Arguments Ok {A} a.
Arguments Raise {A} c.

#[global] Instance result_ret : MRet result := @Ok.
#[global] Instance result_bind : MBind result :=
  λ A B f m, match m with Ok a => f a | Raise c => Raise c end.

(** [try: body except handled: handler] with one [except] clause. *)
Definition try_except {A} (body : result A) (handled : exc_class)
    (handler : result A) : result A :=
  match body with
  | Ok a => Ok a
  | Raise c => if issubclass c handled then handler else Raise c
  end.

(** [try: body except (h1, h2): handler], a tuple of classes. *)
Definition try_except_any {A} (body : result A) (handled : list exc_class)
    (handler : result A) : result A :=
  match body with
  | Ok a => Ok a
  | Raise c => if existsb (issubclass c) handled then handler else Raise c
  end.

(** [l[i]] for [i] produced by [range]: IndexError out of range. *)
Definition getitem {A} (l : list A) (i : nat) : result A :=
  match l !! i with Some x => Ok x | None => Raise IndexError end.

(** [d[k]] on a plain dict: KeyError when absent. *)
Definition dict_getitem {A} (d : gmap string A) (k : string) : result A :=
  match d !! k with Some x => Ok x | None => Raise KeyError end.

(** [l[:n]]: a negative stop counts from the end, a stop past the end
    is clipped. *)
Definition slice_to {A} (n : Z) (l : list A) : list A :=
  if (0 <=? n)%Z then take (Z.to_nat n) l
  else take (Z.to_nat (Z.of_nat (length l) + n)) l.

(** [sub in s] on strings. *)
Definition contains (sub s : string) : bool :=
  match String.index 0 sub s with Some _ => true | None => false end.

(** [math.ceil] of a binary64 float: ValueError on NaN, OverflowError on
    an infinity. *)
Definition math_ceil (x : float) : result Z :=
  match Prim2SF x with
  | S754_zero _ => Ok 0%Z
  | S754_finite s m e =>
      let v := if s then Z.neg m else Z.pos m in
      Ok (if (0 <=? e)%Z then v * 2 ^ e else - ((- v) / 2 ^ (- e)))%Z
  | S754_infinity _ => Raise OverflowError
  | S754_nan => Raise ValueError
  end.

(** Conversion of the int operand of [int * float], rounding to nearest;
    exact below [2^53], and meant for magnitudes below [2^63], which every
    [len(...)] is. *)
Definition int_to_float (z : Z) : float :=
  if (0 <=? z)%Z then of_uint63 (Uint63.of_Z z)
  else PrimFloat.opp (of_uint63 (Uint63.of_Z (- z))).

(** [a % b] on ints: the sign follows the divisor, as [Z.modulo]. *)
Definition int_mod (a b : Z) : result Z :=
  if (b =? 0)%Z then Raise ZeroDivisionError else Ok (a mod b)%Z.

End Py.
Import Py.

(** * The trainer: [MindRSTrainer] *)

Module Trainer.

(** The options read through [config.get(key, default)]; [None] is an
    absent key. *)
Record Configuration := {
  cfg_valid_interval : option float;
  cfg_topic_variant : option string;
  cfg_valid_method : option string;
  cfg_return_weight : option bool;
  cfg_entropy_constraint : option bool;
  cfg_saved_weight_num : option Z;
  cfg_evaluate_topic_by_epoch : option bool;
  cfg_topic_evaluation_method : option string
}.

(** [config.get(key, dflt)]. *)
Definition get {A} (field : option A) (dflt : A) : A := default dflt field.

(** ** Cache decision of [_valid_epoch] (the [try] block) *)

(** The four conjuncts of the fast-evaluation condition, on the values the
    code reads from the configuration. *)
Definition fast_condition (config : Configuration) : Prop :=
  get (cfg_valid_method config) "fast_evaluation" = "fast_evaluation"
  ∧ get (cfg_return_weight config) false = false
  ∧ get (cfg_entropy_constraint config) false = false
  ∧ get (cfg_topic_variant config) "base" ≠ "variational_topic".

Section NewsEmbeds.
Context {embeds : Type}.

(** The condition of the [if] inside the [try]. *)
Definition fast_evaluation_requested (config : Configuration) : bool :=
  let valid_method := get (cfg_valid_method config) "fast_evaluation" in
  let topic_variant := get (cfg_topic_variant config) "base" in
  let return_weight := get (cfg_return_weight config) false in
  let entropy_constraint := get (cfg_entropy_constraint config) false in
  bool_decide (valid_method = "fast_evaluation") && negb return_weight
  && negb entropy_constraint
  && negb (bool_decide (topic_variant = "variational_topic")).

(** The [try ... except KeyError or RuntimeError] block.  The call
    [get_news_embeds(model, news_loader, ...)] is given by its outcome;
    the expression after [except] is evaluated as Python does. *)
Definition try_news_embeds (config : Configuration)
    (get_news_embeds : result embeds) : result (option embeds) :=
  try_except
    (if fast_evaluation_requested config
     then news_embeds ← get_news_embeds; Ok (Some news_embeds)
     else Ok None)
    (py_or KeyError RuntimeError)
    (Ok None).

(** The same block with the tuple form [except (KeyError, RuntimeError)],
    which is how Python catches either class. *)
Definition try_news_embeds_tuple (config : Configuration)
    (get_news_embeds : result embeds) : result (option embeds) :=
  try_except_any
    (if fast_evaluation_requested config
     then news_embeds ← get_news_embeds; Ok (Some news_embeds)
     else Ok None)
    [KeyError; RuntimeError]
    (Ok None).
End NewsEmbeds.

(** ** The impression loop of [_valid_epoch] *)

Section Impressions.
(** Array elements, metric values. *)
Context {num mval : Type}.

(** A batched tensor seen from the loop: one row per impression. *)
Abbreviation tensor := (list (list num)).

(** The entries of [batch_dict] the loop reads. *)
Record batch_dict := {
  label : tensor;
  candidate_length : list Z;
  history_length : list Z;
  impression_index : list Z;
  candidate_index : list (list Z);
  history_index : list (list Z)
}.

(** A metric function with its [__name__]. *)
Record metric := { m_name : string; m_call : list num → list num → mval }.

(** What is appended to a field of [weight_dict]. *)
Inductive saved_item :=
| ImpressionIndex (index : Z)
| Results (r : gmap string mval)
| Array (a : list num)
| Indices (l : list Z).

Variable metric_funcs : list metric.
Variable return_weight : bool.
Variable saved_weight_num : Z.
(** [model(batch_dict)]: the output dictionary. *)
Variable model : batch_dict → gmap string tensor.

(** The two arguments of [m(label[i][:can_len[i]], pred[i][:can_len[i]])]. *)
Definition metric_args (batch : batch_dict) (pred : tensor) (i : nat)
    : result (list num * list num) :=
  lab ← getitem (label batch) i;
  cl ← getitem (candidate_length batch) i;
  p ← getitem pred i;
  cl' ← getitem (candidate_length batch) i;
  Ok (slice_to cl lab, slice_to cl' p).

(** The dict comprehension [{m.__name__: m(...) for m in metric_funcs}]:
    a later metric with the same name overwrites an earlier one. *)
Fixpoint eval_metrics (ms : list metric) (batch : batch_dict)
    (pred : tensor) (i : nat) (acc : gmap string mval)
    : result (gmap string mval) :=
  match ms with
  | [] => Ok acc
  | m :: ms' =>
      args ← metric_args batch pred i;
      eval_metrics ms' batch pred i
        (<[m_name m := m_call m args.1 args.2]> acc)
  end.

(** The dictionary the comprehension yields once both arguments are fixed. *)
Definition apply_metrics (ms : list metric) (l p : list num)
    (acc : gmap string mval) : gmap string mval :=
  foldl (λ acc m, <[m_name m := m_call m l p]> acc) acc ms.

(** [weight_dict[name].append(x)] on a [defaultdict(lambda: [])]. *)
Definition dd_append (name : string) (x : saved_item)
    (weight_dict : gmap string (list saved_item))
    : gmap string (list saved_item) :=
  <[name := (weight_dict !!! name) ++ [x]]> weight_dict.

(** [for name, weight in out_dict.items()]: the outputs whose name
    contains "weight", cut to the candidate or the history length. *)
Fixpoint collect_weights (items : list (string * tensor)) (i : nat)
    (can_len_i his_len_i : Z) (weight_dict : gmap string (list saved_item))
    : result (gmap string (list saved_item)) :=
  match items with
  | [] => Ok weight_dict
  | (name, weight) :: rest =>
      if contains "weight" name then
        let length := if contains "candidate" name then can_len_i
                      else his_len_i in
        w ← getitem weight i;
        collect_weights rest i can_len_i his_len_i
          (dd_append name (Array (slice_to length w)) weight_dict)
      else collect_weights rest i can_len_i his_len_i weight_dict
  end.

(** The state the loop updates: [result_dict] and [weight_dict]. *)
Record loop_state := {
  result_dict : gmap Z (gmap string mval);
  weight_dict : gmap string (list saved_item)
}.

(** Body of [for i in range(len(label))]. *)
Definition impression_row (batch : batch_dict)
    (out_dict : gmap string tensor) (pred : tensor) (i : nat)
    (st : loop_state) : result loop_state :=
  index ← getitem (impression_index batch) i;
  res ← eval_metrics metric_funcs batch pred i ∅;
  let result_dict' := <[index := res]> (result_dict st) in
  if return_weight then
    lab ← getitem (label batch) i;
    cl ← getitem (candidate_length batch) i;
    ci ← getitem (candidate_index batch) i;
    hi ← getitem (history_index batch) i;
    hl ← getitem (history_length batch) i;
    p ← getitem pred i;
    let wd :=
      dd_append "pred_score" (Array (slice_to cl p))
        (dd_append "history_index" (Indices (slice_to hl hi))
           (dd_append "candidate_index" (Indices (slice_to cl ci))
              (dd_append "label" (Array (slice_to cl lab))
                 (dd_append "results" (Results res)
                    (dd_append "impression_index" (ImpressionIndex index)
                       (weight_dict st)))))) in
    wd' ← collect_weights (map_to_list out_dict) i cl hl wd;
    Ok {| result_dict := result_dict'; weight_dict := wd' |}
  else Ok {| result_dict := result_dict'; weight_dict := weight_dict st |}.

Fixpoint impression_rows (batch : batch_dict)
    (out_dict : gmap string tensor) (pred : tensor) (rows : list nat)
    (st : loop_state) : result loop_state :=
  match rows with
  | [] => Ok st
  | i :: rest =>
      st' ← impression_row batch out_dict pred i st;
      impression_rows batch out_dict pred rest st'
  end.

(** Body of the batch loop, up to the [break] test. *)
Definition validate_batch (batch : batch_dict) (st : loop_state)
    : result loop_state :=
  let out_dict := model batch in
  pred ← dict_getitem out_dict "pred";
  impression_rows batch out_dict pred (seq 0 (length (label batch))) st.

(** [for vi, batch_dict in enumerate(valid_loader)] with its
    [if vi >= saved_weight_num and return_weight: break]. *)
Fixpoint impression_loop (vi : Z) (valid_loader : list batch_dict)
    (st : loop_state) : result loop_state :=
  match valid_loader with
  | [] => Ok st
  | batch :: rest =>
      st' ← validate_batch batch st;
      if (saved_weight_num <=? vi)%Z && return_weight then Ok st'
      else impression_loop (vi + 1) rest st'
  end.

(** Every batch of a list, with no [break]: the reference the loop is
    compared with. *)
Fixpoint validate_batches (batches : list batch_dict) (st : loop_state)
    : result loop_state :=
  match batches with
  | [] => Ok st
  | batch :: rest => st' ← validate_batch batch st; validate_batches rest st'
  end.

Definition initial_state : loop_state :=
  {| result_dict := ∅; weight_dict := ∅ |}.

(** ** The weight-dump writer (the tail of [_valid_epoch]) *)

(** [for key in weight_dict.keys(): weight_dict[key].extend(old_weights[key])];
    [old_weights] is the plain dict read back from the file. *)
Fixpoint extend_fields (keys : list string)
    (old_weights weight_dict : gmap string (list saved_item))
    : result (gmap string (list saved_item)) :=
  match keys with
  | [] => Ok weight_dict
  | key :: rest =>
      old ← dict_getitem old_weights key;
      extend_fields rest old_weights
        (<[key := (weight_dict !!! key) ++ old]> weight_dict)
  end.

(** The file at [weight_path]: [None] when it does not exist.  The
    result is the file after [torch.save(dict(weight_dict), weight_path)]. *)
Definition save_weights (weight_dict : gmap string (list saved_item))
    (file : option (gmap string (list saved_item)))
    : result (option (gmap string (list saved_item))) :=
  match file with
  | Some old_weights =>
      merged ← extend_fields (map_to_list weight_dict).*1 old_weights
                 weight_dict;
      Ok (Some merged)
  | None => Ok (Some weight_dict)
  end.

End Impressions.
Arguments batch_dict : clear implicits.
Arguments metric : clear implicits.
Arguments saved_item : clear implicits.
Arguments loop_state : clear implicits.

(** ** [_valid_epoch] *)

Section ValidEpoch.
Context {num mval embeds log : Type}.
Abbreviation dump := (gmap string (list (saved_item num mval))).

Variable metric_funcs : list (metric num mval).
Variable model : batch_dict num → gmap string (list (list num)).
Variable config : Configuration.
(** Outcome of [get_news_embeds(model, news_loader, ...)]. *)
Variable get_news_embeds : result embeds.
(** [DataLoader(ImpressionDataset(valid_set, news_embeds, ...), ...)]. *)
Variable valid_loader : option embeds → list (batch_dict num).
Variable gather_dict : gmap Z (gmap string mval) → gmap Z (gmap string mval).
(** The rounded column means of the gathered results. *)
Variable average : gmap Z (gmap string mval) → log.
(** [eval_result.update(self.topic_evaluation(...))]. *)
Variable topic_evaluation : log → log.
Variable is_main_process : bool.

(** The file at [weight_path] is threaded through: [None] when absent. *)
Definition _valid_epoch (file : option dump) : result (log * option dump) :=
  let return_weight := get (cfg_return_weight config) false in
  let saved_weight_num := get (cfg_saved_weight_num config) 250%Z in
  news_embeds ← try_news_embeds config get_news_embeds;
  st ← impression_loop metric_funcs return_weight saved_weight_num model
         0 (valid_loader news_embeds) initial_state;
  let result_dict := gather_dict (result_dict st) in
  let eval_result := average result_dict in
  let eval_result :=
    if get (cfg_evaluate_topic_by_epoch config) false
       && match cfg_topic_evaluation_method config with
          | Some method => negb (bool_decide (method = ""))
          | None => false
          end
    then topic_evaluation eval_result else eval_result in
  if return_weight && is_main_process then
    file' ← save_weights (weight_dict st) file;
    Ok (eval_result, file')
  else Ok (eval_result, file).
End ValidEpoch.

(** ** The training epoch: [_train_epoch] *)

Section TrainEpoch.
(** Tensors (losses, predictions, labels) and scalar weights. *)
Context {T scalar : Type}.

(** [loss += x] and [self.alpha * x]. *)
Variable tadd : T → T → T.
Variable scale : scalar → T → T.
(** [self.model(batch_dict)] and [self.criterion(pred, label)]. *)
Variable model : gmap string T → gmap string T.
Variable criterion : T → T → T.

(** Attributes the base class [NCTrainer] sets. *)
Record NCTrainer := {
  entropy_constraint : bool;
  alpha : scalar;
  len_epoch : Z;
  log_step : Z;
  lr_scheduler : bool   (* [self.lr_scheduler is not None] *)
}.

Record MindRSTrainer := {
  super : NCTrainer;
  valid_interval : float;
  topic_variant : string
}.

(** [__init__]: the two options the epoch loop reads. *)
Definition __init__ (base : NCTrainer) (config : Configuration) : MindRSTrainer :=
  {| super := base;
     valid_interval := get (cfg_valid_interval config) 0x1.999999999999ap-4%float;
     topic_variant := get (cfg_topic_variant config) "base" |}.

(** The parts of the progress-bar description, in order. *)
Inductive description_part :=
| Loss (x : T)
| EntropyLoss (x : T)
| KLDivergence (x : T).

(** What an epoch does to its collaborators.  [Validation epoch batch_idx
    do_monitor] is one call of [_validation], which runs [_valid_epoch],
    calls [_monitor] when [do_monitor], and puts the model back in training
    mode. *)
Inductive event :=
| ModelTrain
| ResetTrainMetrics
| ZeroGrad
| Backward (loss : T)
| OptimizerStep
| SetStep (step : Z)
| UpdateLoss (loss : T)
| SetDescription (d : list description_part)
| Validation (epoch batch_idx : Z) (do_monitor : bool)
| SchedulerStep.

(** One batch, from [zero_grad] to [train_metrics.update]. *)
Definition train_step (self : MindRSTrainer) (epoch batch_idx : Z)
    (batch_dict : gmap string T) : result (list event * list description_part) :=
  let output := model batch_dict in
  pred ← dict_getitem output "pred";
  lab ← dict_getitem batch_dict "label";
  let loss := criterion pred lab in
  let bar_description := [Loss loss] in
  '(loss, bar_description) ←
    (if entropy_constraint (super self) then
       entropy ← dict_getitem output "entropy";
       Ok (tadd loss (scale (alpha (super self)) entropy),
           bar_description ++ [EntropyLoss (scale (alpha (super self)) entropy)])
     else Ok (loss, bar_description));
  bar_description ←
    (if bool_decide (topic_variant self = "variational_topic") then
       (* loss += self.beta * output["kl_divergence"]   -- commented out *)
       kl ← dict_getitem output "kl_divergence";
       Ok (bar_description ++ [KLDivergence kl])
     else Ok bar_description);
  Ok ([ZeroGrad; Backward loss; OptimizerStep;
       SetStep ((epoch - 1) * len_epoch (super self) + batch_idx);
       UpdateLoss loss], bar_description).

(** [for batch_idx, batch_dict in bar], from [batch_idx] on. *)
Fixpoint train_loop (self : MindRSTrainer) (epoch length batch_idx : Z)
    (batches : list (gmap string T)) : result (list event) :=
  match batches with
  | [] => Ok []
  | batch_dict :: rest =>
      '(evs, bar_description) ← train_step self epoch batch_idx batch_dict;
      r ← int_mod batch_idx (log_step (super self));
      let evs := evs ++ (if (r =? 0)%Z then [SetDescription bar_description]
                         else []) in
      if (batch_idx =? len_epoch (super self))%Z then Ok evs
      else
        every ← math_ceil (int_to_float length * valid_interval self)%float;
        r ← int_mod (batch_idx + 1) every;
        let evs := evs ++ (if (r =? 0)%Z && (batch_idx + 1 <? length)%Z
                           then [Validation epoch batch_idx true] else []) in
        evs' ← train_loop self epoch length (batch_idx + 1) rest;
        Ok (evs ++ evs')
  end.

Definition _train_epoch (self : MindRSTrainer) (epoch : Z)
    (train_loader : list (gmap string T)) : result (list event) :=
  let length := Z.of_nat (List.length train_loader) in
  evs ← train_loop self epoch length 0 train_loader;
  Ok ([ModelTrain; ResetTrainMetrics] ++ evs
      ++ (if lr_scheduler (super self) then [SchedulerStep] else [])
      ++ [Validation epoch length false]).

(** The calls of [_validation] in a trace, as [(batch_idx, do_monitor)]. *)
Definition validations (trace : list event) : list (Z * bool) :=
  omap (λ ev, match ev with
              | Validation _ batch_idx do_monitor => Some (batch_idx, do_monitor)
              | _ => None
              end) trace.

(** The losses handed to [accelerator.backward]. *)
Definition backward_losses (trace : list event) : list T :=
  omap (λ ev, match ev with Backward loss => Some loss | _ => None end) trace.

(** A batch on which the training step does not raise. *)
Definition step_ok (self : MindRSTrainer) (batch_dict : gmap string T) : Prop :=
  ∀ epoch batch_idx, ∃ r, train_step self epoch batch_idx batch_dict = Ok r.

(** The batch indices at which interval validation fires among [n] batches
    from [batch_idx] on, for a period [every] and an epoch of [length]
    batches. *)
Fixpoint interval_points (every length batch_idx : Z) (n : nat) : list Z :=
  match n with
  | O => []
  | S n' =>
      (if ((batch_idx + 1) mod every =? 0)%Z && (batch_idx + 1 <? length)%Z
       then [batch_idx] else [])
      ++ interval_points every length (batch_idx + 1) n'
  end.
End TrainEpoch.
Arguments NCTrainer : clear implicits.
Arguments MindRSTrainer : clear implicits.
Arguments event : clear implicits.
Arguments description_part : clear implicits.

End Trainer.

(** * The model: [BATMRSModel] *)

Module BATM.
Open Scope R_scope.

Abbreviation tensor2 := (list (list R)).
Abbreviation tensor3 := (list (list (list R))).

Definition Rsum (xs : list R) : R := foldr Rplus 0 xs.

(** [torch.softmax(row, dim=-1)] on one row. *)
Definition softmax (row : list R) : list R :=
  let total := Rsum (map exp row) in
  map (λ x, exp x / total) row.

(** [t.transpose(1, 2)] on one item of the batch, for a last axis of size
    [cols]: entry [(j, i)] of the result is entry [(i, j)] of [m]. *)
Definition transpose (cols : nat) (m : tensor2) : tensor2 :=
  map (λ j, map (λ row, nth j row 0) m) (seq 0 cols).

Definition dot (u v : list R) : R := Rsum (zip_with Rmult u v).

(** [torch.matmul] on one item: [a] is (H, S), [b] is (S, E). *)
Definition matmul2 (a b : tensor2) : tensor2 :=
  match b with
  | [] => map (λ _, []) a
  | b0 :: _ => map (λ row, map (λ col, dot row col) (transpose (length b0) b)) a
  end.

Definition matmul (a b : tensor3) : tensor3 := zip_with matmul2 a b.

(** The boolean mask [news_mask.expand(head_num, N, -1).transpose(0, 1) == 0],
    of shape (N, H, S). *)
Definition expand_mask (head_num : nat) (news_mask : list (list Z))
    : list (list (list bool)) :=
  map (λ m, replicate head_num (map (λ x, bool_decide (x = 0%Z)) m)) news_mask.

(** [t.masked_fill(mask, value)] on tensors of one shape. *)
Definition masked_fill_row (row : list R) (mask : list bool) (value : R) : list R :=
  zip_with (λ x (b : bool), if b then value else x) row mask.

Definition masked_fill (t : tensor3) (mask : list (list (list bool))) (value : R)
    : tensor3 :=
  zip_with (zip_with (λ row m, masked_fill_row row m value)) t mask.

(** The fill value [-1e9]. *)
Definition neg_fill : R := -1000000000.

(** The entries of [input_feat] the model reads. *)
Record input_feat := {
  news : list (list Z);          (* token ids, (N, S) *)
  news_mask : list (list Z);     (* (N, S) *)
  history_news : tensor3         (* (B, history, E) *)
}.

(** The value [user_encoder] returns: pooled to one vector per user, or the
    history tensor as it came in. *)
Inductive user_vector :=
| Pooled (y : tensor2)
| Unpooled (y : tensor3).

Section Model.
Variable variant_name : string.
Variable head_num : nat.
(** Layers of [torch.nn] and of the base class [MindNRSBase]. *)
Variable embedding_layer : list (list Z) → tensor3.
Variable dropouts : tensor3 → tensor3.
Variable topic_layer : tensor3 → tensor3.
Variable final : tensor3 → tensor3.
Variable news_att_layer : tensor3 → tensor2 * tensor2.
Variable user_att_layer : tensor3 → tensor2 * tensor2.
(** [self.user_encode_layer]: an [nn.GRU] for base and base_att (it returns
    a pair), an [nn.Sequential] for bi_batm. *)
Variable user_encode_gru : tensor3 → tensor3 * tensor3.
Variable user_encode_seq : tensor3 → tensor3.
Variable user_final : tensor3 → tensor3.

(** The logits [self.topic_layer(embedding).transpose(1, 2)], (N, H, S). *)
Definition topic_logits (input : input_feat) : tensor3 :=
  let embedding := dropouts (embedding_layer (news input)) in
  map (transpose head_num) (topic_layer embedding).

Definition extract_topic (input : input_feat) : tensor3 * tensor3 :=
  let embedding := dropouts (embedding_layer (news input)) in
  let topic_weight := map (transpose head_num) (topic_layer embedding) in
  let mask := expand_mask head_num (news_mask input) in
  let topic_weight := map (map softmax) (masked_fill topic_weight mask neg_fill) in
  let topic_vec := final (matmul topic_weight embedding) in
  (topic_vec, topic_weight).

Definition news_encoder (input : input_feat) : tensor2 :=
  let '(y, topic_weight) := extract_topic input in
  let y := dropouts y in
  (news_att_layer y).1.

(** [user_weight] of the bi_batm branch: the layer output transposed; the
    two lines that would mask and normalise it are comments in the source. *)
Definition user_topic_weight (y : tensor3) : tensor3 :=
  map (transpose head_num) (user_encode_seq y).

Definition user_encoder (input : input_feat) : user_vector :=
  let y := history_news input in
  if bool_decide (variant_name = "base") then
    let y := (user_encode_gru y).1 in
    Pooled (user_att_layer y).1
  else if bool_decide (variant_name = "bi_batm") then
    let user_weight := user_topic_weight y in
    let user_vec := user_final (matmul user_weight y) in
    Pooled (user_att_layer user_vec).1
  else if bool_decide (variant_name = "base_att") then
    Pooled (user_att_layer y).1
  else Unpooled y.
End Model.

(** Sum of a row over the positions a selection keeps. *)
Fixpoint sum_over (keep : list bool) (row : list R) : R :=
  match keep, row with
  | k :: keep', x :: row' => (if k then x else 0) + sum_over keep' row'
  | _, _ => 0
  end.

End BATM.

(** * Concrete inputs *)

Module Examples.
Import Trainer BATM.

(** The two-impression batch of the end-to-end scenario: candidate lengths
    3 and 2, history lengths 5 and 4, rows padded to length 4. *)
Definition ex_batch : batch_dict Z :=
  {| label := [[1; 0; 0; 0]; [0; 1; 0; 0]]%Z;
     candidate_length := [3; 2]%Z;
     history_length := [5; 4]%Z;
     impression_index := [7; 8]%Z;
     candidate_index := [[11; 12; 13; 0]; [21; 22; 0; 0]]%Z;
     history_index := [[1; 2; 3; 4; 5]; [6; 7; 8; 9; 0]]%Z |}.

Definition ex_pred : list (list Z) := [[9; 2; 3; 0]; [1; 8; 0; 0]]%Z.

(** Two stand-in metrics over integer scores. *)
Definition ex_metrics : list (metric Z Z) :=
  [ {| m_name := "positives"; m_call := λ l _, foldr Z.add 0%Z l |};
    {| m_name := "length"; m_call := λ _ p, Z.of_nat (length p) |} ].

(** Three batches of two impressions each, with indices 0 to 5. *)
Definition ex_batch_at (first : Z) : batch_dict Z :=
  {| label := [[1; 0; 0]; [0; 1; 0]]%Z;
     candidate_length := [3; 2]%Z;
     history_length := [1; 1]%Z;
     impression_index := [first; first + 1]%Z;
     candidate_index := [[11; 12; 13]; [21; 22; 0]]%Z;
     history_index := [[1]; [6]]%Z |}.

Definition ex_valid_loader : list (batch_dict Z) :=
  [ex_batch_at 0; ex_batch_at 2; ex_batch_at 4].

(** A model that scores every candidate by its label and reports one
    attention weight per candidate. *)
Definition ex_model (batch : batch_dict Z) : gmap string (list (list Z)) :=
  <["pred" := label batch]> (<["candidate_weight" := label batch]> ∅).

(** Two weight dumps with the one field "label". *)
Definition dump_A : gmap string (list (saved_item Z Z)) :=
  {[ "label" := [Array [1%Z]] ]}.
Definition dump_B : gmap string (list (saved_item Z Z)) :=
  {[ "label" := [Array [2%Z]] ]}.
(** A prior file with a field the current dump lacks. *)
Definition dump_old : gmap string (list (saved_item Z Z)) :=
  <["topic_weight" := [Array [5%Z]]]> dump_A.

Definition default_config : Configuration :=
  {| cfg_valid_interval := None; cfg_topic_variant := None;
     cfg_valid_method := None; cfg_return_weight := None;
     cfg_entropy_constraint := None; cfg_saved_weight_num := None;
     cfg_evaluate_topic_by_epoch := None;
     cfg_topic_evaluation_method := None |}.

(** [valid_interval = 0.2], the double nearest to one fifth. *)
Definition interval_config : Configuration :=
  {| cfg_valid_interval := Some 0x1.999999999999ap-3%float;
     cfg_topic_variant := Some "variational_topic";
     cfg_valid_method := None; cfg_return_weight := None;
     cfg_entropy_constraint := None; cfg_saved_weight_num := None;
     cfg_evaluate_topic_by_epoch := None;
     cfg_topic_evaluation_method := None |}.

Definition ex_base : NCTrainer Z :=
  {| entropy_constraint := false; alpha := 1%Z; len_epoch := 100%Z;
     log_step := 10%Z; lr_scheduler := true |}.

Definition ex_trainer : MindRSTrainer Z := __init__ ex_base interval_config.

(** Integer stand-ins for the tensors of a training step: the model
    predicts 2 and reports a KL divergence of 3; the loss is the sum of
    prediction and label. *)
Definition ex_train_model (batch_dict : gmap string Z) : gmap string Z :=
  <["pred" := 2%Z]> (<["kl_divergence" := 3%Z]> ∅).
Definition ex_criterion (pred lab : Z) : Z := (pred + lab)%Z.
Definition ex_train_batch : gmap string Z := {[ "label" := 3%Z ]}.
(** The weight [self.beta] of the commented-out line. *)
Definition ex_beta : Z := 1%Z.

(** One news item of two tokens, the second one padding. *)
Definition ex_input : input_feat :=
  {| news := [[2; 7]]%Z; news_mask := [[1; 0]]%Z;
     history_news := [[[1]; [1]]]%R |}.
(** One-dimensional embeddings: the token id as a real. *)
Definition ex_embedding_layer (news : list (list Z)) : tensor3 :=
  map (map (λ t, [IZR t])) news.
Definition ex_identity (t : tensor3) : tensor3 := t.
Definition ex_att_layer (t : tensor3) : tensor2 * tensor2 :=
  (map (λ m, map Rsum m) t, []).
Definition ex_gru (t : tensor3) : tensor3 * tensor3 := (t, t).
(** A [Linear]-[Tanh]-[Linear] stack with zero weights and zero biases:
    the logit 0 for the single head at every history position. *)
Definition zero_layer (y : tensor3) : tensor3 := map (map (λ _, [0%R])) y.

End Examples.

(** * Shapes and observations for the impression loop *)

Module Rows.
Import Trainer.

Section Rows.
Context {num mval : Type}.
Variable metric_funcs : list (metric num mval).

(** The fields [saved_items] holds for every impression. *)
Definition saved_fields : list string :=
  ["impression_index"; "results"; "label"; "candidate_index";
   "history_index"; "pred_score"].

(** A batch as the collate function builds it: every column the loop reads
    has one entry per row of [label], the model output has a [pred] with
    one row per impression and, when weights are exported, so has every
    output whose name contains "weight". *)
Definition batch_ok (return_weight : bool) (batch : batch_dict num)
    (out_dict : gmap string (list (list num))) : Prop :=
  let n := length (label batch) in
  length (impression_index batch) = n
  ∧ length (candidate_length batch) = n
  ∧ (∃ pred, out_dict !! "pred" = Some pred ∧ length pred = n)
  ∧ (return_weight = true →
       length (candidate_index batch) = n
       ∧ length (history_index batch) = n
       ∧ length (history_length batch) = n
       ∧ map_Forall (λ name (w : list (list num)),
                       contains "weight" name = true → length w = n) out_dict).

(** The metric results of row [i]: every metric on the truncated rows. *)
Definition row_result (batch : batch_dict num) (pred : list (list num))
    (i : nat) : gmap string mval :=
  let cl := candidate_length batch !!! i in
  apply_metrics metric_funcs (slice_to cl (label batch !!! i))
    (slice_to cl (pred !!! i)) ∅.

(** What row [i] adds to the field [name] of [weight_dict]. *)
Definition saved_row (batch : batch_dict num)
    (out_dict : gmap string (list (list num))) (i : nat) (name : string)
    : list (saved_item num mval) :=
  let cl := candidate_length batch !!! i in
  let hl := history_length batch !!! i in
  let pred := out_dict !!! "pred" in
  if bool_decide (name = "impression_index") then
    [ImpressionIndex (impression_index batch !!! i)]
  else if bool_decide (name = "results") then [Results (row_result batch pred i)]
  else if bool_decide (name = "label") then
    [Array (slice_to cl (label batch !!! i))]
  else if bool_decide (name = "candidate_index") then
    [Indices (slice_to cl (candidate_index batch !!! i))]
  else if bool_decide (name = "history_index") then
    [Indices (slice_to hl (history_index batch !!! i))]
  else if bool_decide (name = "pred_score") then
    [Array (slice_to cl (pred !!! i))]
  else
    match out_dict !! name with
    | Some w =>
        if contains "weight" name then
          [Array (slice_to (if contains "candidate" name then cl else hl)
                    (w !!! i))]
        else []
    | None => []
    end.

(** The entries [collect_weights] adds to the field [k]. *)
Fixpoint weight_entries (items : list (string * list (list num))) (i : nat)
    (cl hl : Z) (k : string) : list (saved_item num mval) :=
  match items with
  | [] => []
  | (name, w) :: rest =>
      (if bool_decide (name = k) && contains "weight" name then
         [Array (slice_to (if contains "candidate" name then cl else hl) (w !!! i))]
       else [])
      ++ weight_entries rest i cl hl k
  end.

(** All impression indices of a list of batches, in loop order. *)
Definition all_indices (batches : list (batch_dict num)) : list Z :=
  batches ≫= impression_index.

(** The number of impressions in a list of batches. *)
Definition impressions (batches : list (batch_dict num)) : nat :=
  sum_list (length ∘ label <$> batches).
End Rows.
End Rows.

(** * Repeated saves of the weight dump *)

Module Dumps.
Import Trainer.

Section Dumps.
Context {num mval : Type}.
Abbreviation dump := (gmap string (list (saved_item num mval))).

(** One [save_weights] per validation round, on the file the previous
    round left. *)
Fixpoint save_all (dumps : list dump) (file : option dump)
    : result (option dump) :=
  match dumps with
  | [] => Ok file
  | weight_dict :: rest =>
      file' ← save_weights weight_dict file; save_all rest file'
  end.

(** Every dump has its fields among those of the dump saved before it,
    [prev] being the fields of the file at the start. *)
Fixpoint fields_chain (prev : gset string) (dumps : list dump) : Prop :=
  match dumps with
  | [] => True
  | weight_dict :: rest =>
      dom weight_dict ⊆ prev ∧ fields_chain (dom weight_dict) rest
  end.

(** The field [k] of the dumps, the newest dump first. *)
Definition newest_first (dumps : list dump) (k : string)
    : list (saved_item num mval) :=
  concat (reverse ((λ weight_dict : dump, weight_dict !!! k) <$> dumps)).
End Dumps.
End Dumps.

(** * Observations on a training trace *)

Module Traces.
Import Trainer.

Section Traces.
Context {T : Type}.

(** The global steps given to [writer.set_step]. *)
Definition set_steps (trace : list (event T)) : list Z :=
  omap (λ ev, match ev with SetStep step => Some step | _ => None end) trace.
End Traces.
End Traces.

(** * The logs of [evaluate] and [_validation] *)

Module Reporting.
Import Trainer.

(** A value of the log of [_validation]: the text [f"{epoch}/{batch_idx}"]
    or a metric value. *)
Inductive log_value (mval : Type) :=
| EpochStep (epoch batch_idx : Z)
| Value (v : mval).
Arguments EpochStep {mval} epoch batch_idx.
Arguments Value {mval} v.

Section Reporting.
Context {num mval embeds : Type}.
Abbreviation dump := (gmap string (list (saved_item num mval))).

(** The comprehension [{rename(k): wrap(v) for k, v in log.items()}]: a
    later item with the same new key overwrites an earlier one. *)
Definition renamed {A B} (rename : string → string) (wrap : A → B)
    (log : gmap string A) : gmap string B :=
  foldl (λ acc kv, <[rename kv.1 := wrap kv.2]> acc) ∅ (map_to_list log).

(** [log.update(d)]: the entries of [d] win. *)
Definition update {A} (log d : gmap string A) : gmap string A := d ∪ log.

Variable metric_funcs : list (metric num mval).
Variable model : batch_dict num → gmap string (list (list num)).
Variable config : Configuration.
Variable get_news_embeds : result embeds.
Variable valid_loader : option embeds → list (batch_dict num).
Variable gather_dict : gmap Z (gmap string mval) → gmap Z (gmap string mval).
(** The evaluation log: the rounded mean of every metric column. *)
Variable average : gmap Z (gmap string mval) → gmap string mval.
Variable topic_evaluation : gmap string mval → gmap string mval.
Variable is_main_process : bool.

(** [_validation]: the log it returns and the weight file it leaves.  The
    call of [_monitor] and the return to training mode do not touch
    either. *)
Definition _validation (epoch batch_idx : Z) (do_monitor : bool)
    (file : option dump) : result (gmap string (log_value mval) * option dump) :=
  let log := {[ "epoch/step" := EpochStep epoch batch_idx ]} in
  '(valid_log, file') ←
    _valid_epoch metric_funcs model config get_news_embeds valid_loader
      gather_dict average topic_evaluation is_main_process file;
  let log := update log (renamed (λ k, "val_" +:+ k) Value valid_log) in
  Ok (log, file').

(** [evaluate]: [_valid_epoch] on the given model and dataset, every key
    of its log prefixed. *)
Definition evaluate (prefix : string) (file : option dump)
    : result (gmap string mval * option dump) :=
  '(log, file') ←
    _valid_epoch metric_funcs model config get_news_embeds valid_loader
      gather_dict average topic_evaluation is_main_process file;
  Ok (renamed (λ k, prefix +:+ "_" +:+ k) (λ v : mval, v) log, file').
End Reporting.
End Reporting.

(** * Further concrete inputs *)

Module MoreExamples.
Import Trainer BATM Examples.

(** A model whose output lacks "pred". *)
Definition ex_model_nopred (batch : batch_dict Z) : gmap string (list (list Z)) :=
  {[ "candidate_weight" := label batch ]}.

(** Weight export with a cap of one. *)
Definition export_config : Configuration :=
  {| cfg_valid_interval := None; cfg_topic_variant := None;
     cfg_valid_method := None; cfg_return_weight := Some true;
     cfg_entropy_constraint := None; cfg_saved_weight_num := Some 1%Z;
     cfg_evaluate_topic_by_epoch := None;
     cfg_topic_evaluation_method := None |}.

(** A stand-in for the averaged log: the number of impressions. *)
Definition ex_average (results : gmap Z (gmap string Z)) : gmap string Z :=
  {[ "impressions" := Z.of_nat (size results) ]}.

(** A single process: gathering changes nothing. *)
Definition ex_gather (results : gmap Z (gmap string Z)) : gmap Z (gmap string Z) :=
  results.
(** A topic evaluation that adds nothing to the log. *)
Definition ex_topic_evaluation (log : gmap string Z) : gmap string Z := log.

Definition ex_loader (news_embeds : option unit) : list (batch_dict Z) :=
  ex_valid_loader.

(** An epoch cut after the batch of index 2. *)
Definition ex_trainer_short : MindRSTrainer Z :=
  __init__ {| entropy_constraint := false; alpha := 1%Z; len_epoch := 2%Z;
              log_step := 10%Z; lr_scheduler := true |} interval_config.

(** A trainer that would log every zero steps. *)
Definition ex_trainer_nolog : MindRSTrainer Z :=
  __init__ {| entropy_constraint := false; alpha := 1%Z; len_epoch := 100%Z;
              log_step := 0%Z; lr_scheduler := true |} interval_config.

(** A model output without "kl_divergence". *)
Definition ex_train_model_nokl (batch_dict : gmap string Z) : gmap string Z :=
  {[ "pred" := 2%Z ]}.

(** Three dumps with the one field "label". *)
Definition dump_C : gmap string (list (saved_item Z Z)) :=
  {[ "label" := [Array [3%Z]] ]}.

(** The sample news item with every token masked, and with none. *)
Definition ex_input_masked : input_feat :=
  {| news := [[2; 7]]%Z; news_mask := [[0; 0]]%Z; history_news := [] |}.
Definition ex_input_unmasked : input_feat :=
  {| news := [[2; 7]]%Z; news_mask := [[1; 1]]%Z; history_news := [] |}.
End MoreExamples.

(** * Masked and non-masked positions of a token row *)

Module Masks.
Import BATM.

(** The positions [news_mask == 0] marks for filling. *)
Definition masked_positions (m : list Z) : list bool :=
  map (λ x, bool_decide (x = 0%Z)) m.

(** The positions left as they are. *)
Definition non_masked (m : list Z) : list bool :=
  map (λ x, negb (bool_decide (x = 0%Z))) m.

(** The number of masked positions. *)
Definition masked_count (m : list Z) : nat :=
  length (filter (λ x, x = 0%Z) m).

(** A topic layer whose last [Linear] has zero weights and the bias
    [-2e9]: the logit [-2e9] for the single head at every position. *)
Definition low_layer (t : tensor3) : tensor3 :=
  map (map (λ _, [IZR (-2000000000)])) t.
End Masks.

(** * Properties of the trainer *)

Import Trainer BATM Examples.

Section CacheDecision.
Context {embeds : Type}.
Implicit Types (config : Configuration) (g : result embeds).

Lemma fast_evaluation_requested_spec config :
  fast_evaluation_requested config = true ↔ fast_condition config.
Proof.
  unfold fast_evaluation_requested, fast_condition.
  rewrite !andb_true_iff, !negb_true_iff, bool_decide_eq_true, bool_decide_eq_false.
  tauto.
Qed.

Lemma try_news_embeds_not_requested config g :
  fast_evaluation_requested config = false → try_news_embeds config g = Ok None.
Proof. intros H. unfold try_news_embeds. now rewrite H. Qed.

Lemma try_news_embeds_built config g e :
  try_news_embeds config g = Ok (Some e) →
  fast_evaluation_requested config = true ∧ g = Ok e.
Proof.
  unfold try_news_embeds.
  destruct (fast_evaluation_requested config); [|discriminate].
  destruct g as [a|c]; simpl.
  - intros [= ->]. done.
  - destruct (issubclass c _); discriminate.
Qed.

(** C2: the cache of news embeddings is built exactly in the fast
    configuration.  When [get_news_embeds] returns a cache [e], the block
    leaves [news_embeds = e] if and only if [valid_method] is
    "fast_evaluation", [return_weight] and [entropy_constraint] are false
    and [topic_variant] is not "variational_topic"; whatever the call
    does, a cache is only ever built in that configuration; and in every
    other configuration [news_embeds] is [None] (slow evaluation), the call
    not being made at all. *)
Theorem fast_evaluation_iff config :
  (∀ e : embeds, try_news_embeds config (Ok e) = Ok (Some e) ↔ fast_condition config)
  ∧ (∀ g e, try_news_embeds config g = Ok (Some e) → fast_condition config)
  ∧ (∀ g, ¬ fast_condition config → try_news_embeds config g = Ok None).
Proof.
  split; [|split].
  - intros e. rewrite <- fast_evaluation_requested_spec. split.
    + intros H. now apply try_news_embeds_built in H.
    + intros H. unfold try_news_embeds. now rewrite H.
  - intros g e H. apply fast_evaluation_requested_spec.
    now apply try_news_embeds_built in H.
  - intros g H. apply try_news_embeds_not_requested.
    rewrite <- fast_evaluation_requested_spec in H.
    now destruct (fast_evaluation_requested config).
Qed.
End CacheDecision.

(** C3: in the default (fast) configuration a RuntimeError raised by
    [get_news_embeds] is not caught: [except KeyError or RuntimeError]
    names the class [KeyError] alone, so the error leaves the [try] block
    and aborts [_valid_epoch].  A KeyError is caught and gives slow
    evaluation, and the tuple form of the clause would catch both. *)
Theorem runtime_error_escapes :
  ∀ (num mval embeds log : Type) metric_funcs model valid_loader gather_dict
    average topic_evaluation is_main_process file,
    try_news_embeds default_config (Raise RuntimeError : result embeds)
    = Raise RuntimeError
    ∧ @_valid_epoch num mval embeds log metric_funcs model default_config
        (Raise RuntimeError) valid_loader gather_dict average topic_evaluation
        is_main_process file
      = Raise RuntimeError
    ∧ try_news_embeds default_config (Raise KeyError : result embeds) = Ok None
    ∧ try_news_embeds_tuple default_config (Raise RuntimeError : result embeds)
      = Ok None.
Proof. intros. repeat split; reflexivity. Qed.

Section Truncation.
Context {num mval : Type}.
Implicit Types (batch : batch_dict num) (pred : list (list num)).

Lemma slice_to_take {A} (n : Z) (l : list A) :
  (0 ≤ n)%Z → slice_to n l = take (Z.to_nat n) l.
Proof. intros H. unfold slice_to. destruct (Z.leb_spec 0 n); [done | lia]. Qed.

Lemma slice_to_length {A} (n : Z) (l : list A) :
  (0 ≤ n ≤ Z.of_nat (length l))%Z → Z.of_nat (length (slice_to n l)) = n.
Proof. intros H. rewrite slice_to_take, length_take by lia. lia. Qed.

Lemma getitem_Some {A} (l : list A) i x : l !! i = Some x → getitem l i = Ok x.
Proof. intros H. unfold getitem. now rewrite H. Qed.

Lemma metric_args_ok batch pred i lab p cl :
  label batch !! i = Some lab → pred !! i = Some p →
  candidate_length batch !! i = Some cl →
  metric_args batch pred i = Ok (slice_to cl lab, slice_to cl p).
Proof.
  intros Hl Hp Hc. unfold metric_args.
  rewrite (getitem_Some _ _ _ Hl), (getitem_Some _ _ _ Hp), (getitem_Some _ _ _ Hc).
  reflexivity.
Qed.

Lemma eval_metrics_ok (ms : list (metric num mval)) batch pred i l p acc :
  metric_args batch pred i = Ok (l, p) →
  eval_metrics ms batch pred i acc = Ok (apply_metrics ms l p acc).
Proof.
  intros Hargs. revert acc. induction ms as [|m ms IH]; intros acc; simpl.
  - reflexivity.
  - rewrite Hargs. simpl. apply IH.
Qed.
End Truncation.

Section Cap.
Context {num mval : Type}.
Variable metric_funcs : list (metric num mval).
Variable saved_weight_num : Z.
Variable model : batch_dict num → gmap string (list (list num)).
Implicit Types (batches : list (batch_dict num)) (st : loop_state num mval).

Lemma impression_loop_no_export vi batches st :
  impression_loop metric_funcs false saved_weight_num model vi batches st
  = validate_batches metric_funcs false model batches st.
Proof.
  revert vi st. induction batches as [|b rest IH]; intros vi st; simpl; [done|].
  destruct (validate_batch _ _ _ b st) as [st'|c]; simpl; [|done].
  rewrite andb_false_r. apply IH.
Qed.

Lemma impression_loop_export vi batches st :
  impression_loop metric_funcs true saved_weight_num model vi batches st
  = validate_batches metric_funcs true model
      (take (Z.to_nat (saved_weight_num - vi) + 1) batches) st.
Proof.
  revert vi st. induction batches as [|b rest IH]; intros vi st.
  - by rewrite take_nil.
  - rewrite Nat.add_1_r. simpl.
    destruct (validate_batch _ _ _ b st) as [st'|c]; simpl; [|done].
    rewrite andb_true_r. destruct (Z.leb_spec saved_weight_num vi) as [Hle|Hlt].
    + replace (Z.to_nat (saved_weight_num - vi)) with 0%nat by lia.
      by rewrite take_0.
    + rewrite IH. f_equal. f_equal. lia.
Qed.

(** C4, as the code has it: with weight export enabled the [break] ends
    the whole loop after the batch whose index reaches [saved_weight_num],
    so metrics and weights alike cover exactly the first
    [saved_weight_num + 1] batches (one batch when the cap is not
    positive); with weight export disabled every batch is evaluated. *)
Theorem cap_stops_whole_loop batches st :
  impression_loop metric_funcs true saved_weight_num model 0 batches st
  = validate_batches metric_funcs true model
      (take (Z.to_nat saved_weight_num + 1) batches) st
  ∧ impression_loop metric_funcs false saved_weight_num model 0 batches st
    = validate_batches metric_funcs false model batches st.
Proof.
  split.
  - rewrite impression_loop_export. by rewrite Z.sub_0_r.
  - apply impression_loop_no_export.
Qed.
End Cap.

(** C4 fails as stated: with [saved_weight_num = 1] and three batches of
    two impressions, the loop stops after the second batch.  Impression 4
    of the third batch gets no metric result, and four impressions, not
    one, have been retained. *)
Lemma cap_breaks_evaluation :
  ∃ st, impression_loop ex_metrics true 1 ex_model 0 ex_valid_loader initial_state
        = Ok st
    ∧ 4%Z ∈ impression_index (ex_batch_at 4)
    ∧ result_dict st !! 4%Z = None
    ∧ length (weight_dict st !!! "impression_index") = 4%nat.
Proof.
  eexists. split; [vm_compute; reflexivity|].
  split; [apply elem_of_cons; by left|].
  split; vm_compute; reflexivity.
Qed.

Section Dump.
Context {num mval : Type}.
Implicit Types (old wd : gmap string (list (saved_item num mval))).

Lemma extend_fields_ok keys old wd :
  NoDup keys → (∀ k, k ∈ keys → is_Some (old !! k)) →
  ∃ merged, extend_fields keys old wd = Ok merged
    ∧ ∀ k, merged !! k = if decide (k ∈ keys)
                         then Some (wd !!! k ++ old !!! k) else wd !! k.
Proof.
  revert wd. induction keys as [|key rest IH]; intros wd Hnd Hin; simpl.
  - exists wd. split; [done|]. intros k. destruct (decide (k ∈ [])) as [H|H]; [|done].
    by apply elem_of_nil in H.
  - apply NoDup_cons in Hnd as [Hkey Hnd].
    assert (is_Some (old !! key)) as [o Ho] by (apply Hin, elem_of_cons; by left).
    unfold dict_getitem. rewrite Ho. simpl.
    destruct (IH (<[key := wd !!! key ++ o]> wd) Hnd) as (merged & -> & Hm).
    { intros k Hk. apply Hin, elem_of_cons. by right. }
    exists merged. split; [done|]. intros k. rewrite Hm.
    destruct (decide (k = key)) as [->|Hne].
    + rewrite decide_False by done.
      rewrite decide_True by (apply elem_of_cons; by left).
      rewrite lookup_insert_eq. by rewrite (lookup_total_correct _ _ _ Ho).
    + rewrite lookup_total_insert_ne, lookup_insert_ne by done.
      destruct (decide (k ∈ rest)) as [Hk|Hk].
      * rewrite decide_True; [done | apply elem_of_cons; by right].
      * rewrite decide_False; [done|]. rewrite elem_of_cons. tauto.
Qed.

(** A field of the current dump that the prior file lacks makes the merge
    raise KeyError. *)
Lemma extend_fields_missing keys old wd k :
  k ∈ keys → old !! k = None → extend_fields keys old wd = Raise KeyError.
Proof.
  revert wd. induction keys as [|key rest IH]; intros wd Hin Hk; simpl.
  - by apply elem_of_nil in Hin.
  - unfold dict_getitem. destruct (old !! key) as [o|] eqn:Ho; simpl; [|done].
    apply IH; [|done]. apply elem_of_cons in Hin as [->|]; [congruence | done].
Qed.

Lemma elem_of_keys wd k : k ∈ (map_to_list wd).*1 ↔ is_Some (wd !! k).
Proof.
  rewrite list_elem_of_fmap. split.
  - intros ([k' v] & -> & H). apply elem_of_map_to_list in H. eauto.
  - intros [v H]. exists (k, v). split; [done|]. by apply elem_of_map_to_list.
Qed.

Lemma save_weights_merge wd old :
  dom wd ⊆ dom old →
  ∃ saved, save_weights wd (Some old) = Ok (Some saved)
    ∧ ∀ k, saved !! k = (λ new, new ++ old !!! k) <$> wd !! k.
Proof.
  intros Hsub. unfold save_weights.
  destruct (extend_fields_ok (map_to_list wd).*1 old wd) as (merged & -> & Hm).
  - apply NoDup_fst_map_to_list.
  - intros k Hk. apply elem_of_keys in Hk. apply elem_of_dom.
    apply Hsub. by apply elem_of_dom.
  - exists merged. split; [done|]. intros k. rewrite Hm.
    destruct (decide (k ∈ (map_to_list wd).*1)) as [Hk|Hk].
    + apply elem_of_keys in Hk as [v Hv]. rewrite Hv. simpl.
      by rewrite (lookup_total_correct _ _ _ Hv).
    + destruct (wd !! k) eqn:Hv; [|done].
      exfalso. apply Hk, elem_of_keys. eauto.
Qed.

(** C5, as the code has it: saving dump [A] on no prior file and then dump
    [B], whose fields all occur in [A], leaves a file whose fields are those
    of [B], each being [B]'s new sequence followed by [A]'s prior one. *)
Theorem save_appends_prior_after_new (A B : gmap string (list (saved_item num mval))) :
  dom B ⊆ dom A →
  ∃ saved, (save_weights A None ≫= save_weights B) = Ok (Some saved)
    ∧ ∀ k, saved !! k = (λ b, b ++ A !!! k) <$> B !! k.
Proof. intros Hsub. simpl. by apply save_weights_merge. Qed.

(** C9: the merge walks the keys of the current dump only.  When each of
    them occurs in the prior file the save succeeds, the saved file has
    exactly the keys of the current dump, and a field of the prior file
    that the current dump lacks is absent from the saved file. *)
Theorem save_keeps_only_current_keys wd old :
  dom wd ⊆ dom old →
  ∃ saved, save_weights wd (Some old) = Ok (Some saved)
    ∧ dom saved = dom wd
    ∧ ∀ k, k ∈ dom old → k ∉ dom wd → saved !! k = None.
Proof.
  intros Hsub. destruct (save_weights_merge wd old Hsub) as (saved & Hs & Hm).
  exists saved. split; [done|]. split.
  - apply set_eq. intros k. rewrite !elem_of_dom, Hm, fmap_is_Some. done.
  - intros k _ Hk. rewrite Hm. apply not_elem_of_dom in Hk. by rewrite Hk.
Qed.
End Dump.

(** C5 fails as stated: after saving [dump_A] then [dump_B] the field
    "label" holds [B]'s value first and [A]'s second, not [A]'s followed
    by [B]'s. *)
Lemma save_order_is_new_then_prior :
  ∃ saved, (save_weights dump_A None ≫= save_weights dump_B) = Ok (Some saved)
    ∧ saved !! "label" = Some [Array [2%Z]; Array [1%Z]]
    ∧ saved !! "label" ≠ Some (dump_A !!! "label" ++ dump_B !!! "label").
Proof.
  eexists. split; [vm_compute; reflexivity|].
  split; [vm_compute; reflexivity|]. vm_compute. discriminate.
Qed.

Lemma save_appends_prior_after_new_witness :
  ∃ saved, (save_weights dump_A None ≫= save_weights dump_B) = Ok (Some saved)
    ∧ ∀ k, saved !! k = (λ b, b ++ dump_A !!! k) <$> dump_B !! k.
Proof.
  apply (save_appends_prior_after_new dump_A dump_B).
  apply (bool_decide_unpack _). vm_compute. exact I.
Defined.

(** The prior file has the extra field "topic_weight"; it is gone after
    the save. *)
Lemma save_keeps_only_current_keys_witness :
  ∃ saved, save_weights dump_B (Some dump_old) = Ok (Some saved)
    ∧ dom saved = dom dump_B
    ∧ ∀ k, k ∈ dom dump_old → k ∉ dom dump_B → saved !! k = None.
Proof.
  apply (save_keeps_only_current_keys dump_B dump_old).
  apply (bool_decide_unpack _). vm_compute. exact I.
Defined.

Section Epoch.
Context {T scalar : Type}.
Variable tadd : T → T → T.
Variable scale : scalar → T → T.
Variable model : gmap string T → gmap string T.
Variable criterion : T → T → T.
Implicit Types (self : MindRSTrainer scalar) (batch_dict : gmap string T).

Lemma int_mod_ok (a b : Z) : b ≠ 0%Z → int_mod a b = Ok (a mod b)%Z.
Proof. intros H. unfold int_mod. by rewrite (proj2 (Z.eqb_neq _ _) H). Qed.

Lemma validations_app (tr1 tr2 : list (event T)) :
  validations (tr1 ++ tr2) = validations tr1 ++ validations tr2.
Proof. apply omap_app. Qed.

Lemma train_step_shape self epoch batch_idx batch_dict evs d :
  train_step tadd scale model criterion self epoch batch_idx batch_dict
  = Ok (evs, d) →
  ∃ loss, evs = [ZeroGrad; Backward loss; OptimizerStep;
                 SetStep ((epoch - 1) * len_epoch (super self) + batch_idx);
                 UpdateLoss loss].
Proof.
  unfold train_step.
  destruct (dict_getitem (model batch_dict) "pred") as [pred|]; simpl; [|done].
  destruct (dict_getitem batch_dict "label") as [lab|]; simpl; [|done].
  destruct (entropy_constraint (super self)); simpl.
  - destruct (dict_getitem (model batch_dict) "entropy") as [ent|]; simpl; [|done].
    destruct (bool_decide _); simpl.
    + destruct (dict_getitem (model batch_dict) "kl_divergence"); simpl; [|done].
      intros [= <- _]. eauto.
    + intros [= <- _]. eauto.
  - destruct (bool_decide _); simpl.
    + destruct (dict_getitem (model batch_dict) "kl_divergence"); simpl; [|done].
      intros [= <- _]. eauto.
    + intros [= <- _]. eauto.
Qed.

Lemma train_step_no_validation self epoch batch_idx batch_dict evs d :
  train_step tadd scale model criterion self epoch batch_idx batch_dict
  = Ok (evs, d) →
  validations evs = [].
Proof. intros H. apply train_step_shape in H as [loss ->]. done. Qed.

(** While the [break] is not taken and no step raises, the loop calls
    [_validation] at the interval points, with monitoring. *)
Lemma train_loop_validations self epoch len every batches batch_idx :
  math_ceil (int_to_float len * valid_interval self)%float = Ok every →
  every ≠ 0%Z → log_step (super self) ≠ 0%Z →
  Forall (step_ok tadd scale model criterion self) batches →
  (∀ k, batch_idx ≤ k < batch_idx + Z.of_nat (List.length batches) →
        k ≠ len_epoch (super self))%Z →
  ∃ trace,
    train_loop tadd scale model criterion self epoch len batch_idx batches
    = Ok trace
    ∧ validations trace
      = (λ k, (k, true)) <$> interval_points every len batch_idx (List.length batches).
Proof.
  intros Hceil Hevery Hlog Hok. revert batch_idx.
  induction Hok as [|b rest Hb Hrest IH]; intros batch_idx Hbreak.
  - exists []. done.
  - destruct (Hb epoch batch_idx) as [[evs d] Hstep].
    destruct (IH (batch_idx + 1)%Z) as (trace & Htrace & Hval).
    { intros k Hk. apply Hbreak. simpl List.length. lia. }
    cbn [train_loop]. rewrite Hstep. cbn [mbind result_bind].
    rewrite (int_mod_ok _ _ Hlog). cbn [mbind result_bind].
    rewrite (proj2 (Z.eqb_neq batch_idx _)); [|apply Hbreak; simpl List.length; lia].
    rewrite Hceil. cbn [mbind result_bind].
    rewrite (int_mod_ok _ _ Hevery). cbn [mbind result_bind].
    rewrite Htrace. cbn [mbind result_bind].
    eexists. split; [reflexivity|].
    rewrite !validations_app, Hval, (train_step_no_validation _ _ _ _ _ _ Hstep).
    cbn [List.length interval_points]. rewrite fmap_app.
    destruct (batch_idx mod log_step (super self) =? 0)%Z;
      destruct (((batch_idx + 1) mod every =? 0)%Z && (batch_idx + 1 <? len)%Z);
      reflexivity.
Qed.

(** C6: in an epoch of 100 batches with [valid_interval = 0.2] (and no
    early stop, no failing step), [_validation] is called inside the loop
    exactly for [batch_idx + 1] equal to 20, 40, 60 and 80, with
    monitoring, and once more after the loop with [batch_idx = 100] and
    [do_monitor] off; there is no call at the first or at the last batch. *)
Theorem interval_validation_100 self epoch (train_loader : list (gmap string T)) :
  List.length train_loader = 100%nat →
  valid_interval self = 0x1.999999999999ap-3%float →
  (100 ≤ len_epoch (super self))%Z →
  log_step (super self) ≠ 0%Z →
  Forall (step_ok tadd scale model criterion self) train_loader →
  ∃ trace, _train_epoch tadd scale model criterion self epoch train_loader = Ok trace
    ∧ validations trace
      = [(19, true); (39, true); (59, true); (79, true); (100, false)]%Z.
Proof.
  intros Hlen Hint Hbreak Hlog Hok. unfold _train_epoch. rewrite Hlen.
  change (Z.of_nat 100) with 100%Z.
  destruct (train_loop_validations self epoch 100 20 train_loader 0)
    as (trace & -> & Hval); try done.
  - rewrite Hint. reflexivity.
  - intros k Hk. rewrite Hlen in Hk. lia.
  - cbn [mbind result_bind]. eexists. split; [reflexivity|].
    rewrite !validations_app, Hval, Hlen.
    destruct (lr_scheduler (super self)); reflexivity.
Qed.

(** C7, as the code has it: for the variational topic variant the loss
    handed to the backward pass is the primary loss, plus the weighted
    entropy when [entropy_constraint] is on; the KL divergence is read only
    to be shown at the end of the progress description. *)
Theorem kl_reported_not_added self epoch batch_idx batch_dict pred lab kl :
  topic_variant self = "variational_topic" →
  model batch_dict !! "pred" = Some pred →
  batch_dict !! "label" = Some lab →
  model batch_dict !! "kl_divergence" = Some kl →
  (entropy_constraint (super self) = true → is_Some (model batch_dict !! "entropy")) →
  ∃ loss d,
    train_step tadd scale model criterion self epoch batch_idx batch_dict
    = Ok ([ZeroGrad; Backward loss; OptimizerStep;
           SetStep ((epoch - 1) * len_epoch (super self) + batch_idx);
           UpdateLoss loss], d ++ [KLDivergence kl])
    ∧ loss = match entropy_constraint (super self), model batch_dict !! "entropy" with
             | true, Some entropy =>
                 tadd (criterion pred lab) (scale (alpha (super self)) entropy)
             | _, _ => criterion pred lab
             end.
Proof.
  intros Hvar Hpred Hlab Hkl Hent. unfold train_step, dict_getitem.
  rewrite Hpred, Hlab, Hkl, Hvar. cbn [mbind result_bind].
  destruct (entropy_constraint (super self)).
  - destruct Hent as [ent Hent]; [done|]. rewrite Hent. cbn.
    eexists _, [_; _]. split; reflexivity.
  - cbn. eexists _, [_]. split; [reflexivity|]. by destruct (model batch_dict !! "entropy").
Qed.
End Epoch.

(** C6 on one hundred copies of the sample batch. *)
Lemma interval_validation_100_witness :
  ∃ trace, _train_epoch Z.add Z.mul ex_train_model ex_criterion ex_trainer 1
             (replicate 100 ex_train_batch) = Ok trace
    ∧ validations trace
      = [(19, true); (39, true); (59, true); (79, true); (100, false)]%Z.
Proof.
  apply (interval_validation_100 Z.add Z.mul ex_train_model ex_criterion
           ex_trainer 1 (replicate 100 ex_train_batch)).
  - reflexivity.
  - reflexivity.
  - simpl. lia.
  - simpl. lia.
  - apply Forall_replicate. intros epoch batch_idx. eexists. reflexivity.
Defined.

(** C7 fails as stated: with a primary loss of 5, a KL divergence of 3
    and weight 1, the backward pass receives 5, not 8. *)
Lemma kl_term_missing_from_loss :
  ∃ trace, _train_epoch Z.add Z.mul ex_train_model ex_criterion ex_trainer 1
             [ex_train_batch] = Ok trace
    ∧ backward_losses trace = [ex_criterion 2 3]
    ∧ backward_losses trace ≠ [(ex_criterion 2 3 + ex_beta * 3)%Z].
Proof.
  eexists. split; [vm_compute; reflexivity|].
  split; [vm_compute; reflexivity|]. vm_compute. discriminate.
Qed.

Lemma kl_reported_not_added_witness :
  ∃ loss d,
    train_step Z.add Z.mul ex_train_model ex_criterion ex_trainer 1 0 ex_train_batch
    = Ok ([ZeroGrad; Backward loss; OptimizerStep;
           SetStep ((1 - 1) * len_epoch (super ex_trainer) + 0);
           UpdateLoss loss], d ++ [KLDivergence 3%Z])
    ∧ loss = 5%Z.
Proof.
  apply (kl_reported_not_added Z.add Z.mul ex_train_model ex_criterion
           ex_trainer 1 0 ex_train_batch 2%Z 3%Z 3%Z);
    [reflexivity | reflexivity | reflexivity | reflexivity | simpl; discriminate].
Defined.

(** * Properties of the model *)

Section Softmax.
Open Scope R_scope.
Implicit Types (row : list R).

Lemma Rsum_map_div (f : R → R) (z : R) row :
  Rsum (map (λ x, f x / z) row) = Rsum (map f row) / z.
Proof.
  induction row as [|x row IH]; simpl.
  - unfold Rdiv. by rewrite Rmult_0_l.
  - rewrite IH. unfold Rdiv. by rewrite Rmult_plus_distr_r.
Qed.

Lemma Rsum_exp_nonneg row : 0 <= Rsum (map exp row).
Proof.
  induction row as [|x row IH]; simpl; [lra|].
  pose proof (exp_pos x). lra.
Qed.

Lemma Rsum_exp_pos row : row ≠ [] → 0 < Rsum (map exp row).
Proof.
  destruct row as [|x row]; [done|]. intros _. simpl.
  pose proof (exp_pos x). pose proof (Rsum_exp_nonneg row). lra.
Qed.

Lemma Rsum_exp_lookup row k x : row !! k = Some x → exp x <= Rsum (map exp row).
Proof.
  revert k. induction row as [|y row IH]; intros [|k] H; simplify_eq/=.
  - pose proof (Rsum_exp_nonneg row). lra.
  - pose proof (exp_pos y). pose proof (IH _ H). lra.
Qed.

Lemma softmax_sum row : row ≠ [] → Rsum (softmax row) = 1.
Proof.
  intros H. unfold softmax. rewrite Rsum_map_div.
  pose proof (Rsum_exp_pos row H). field. lra.
Qed.

Lemma softmax_pos row : Forall (λ w, 0 < w) (softmax row).
Proof.
  destruct (decide (row = [])) as [->|H]; [constructor|].
  unfold softmax. apply Forall_fmap, Forall_forall. intros x _. simpl.
  apply Rdiv_lt_0_compat; [apply exp_pos | by apply Rsum_exp_pos].
Qed.

Lemma softmax_lookup row j w :
  softmax row !! j = Some w →
  ∃ x, row !! j = Some x ∧ w = exp x / Rsum (map exp row).
Proof.
  unfold softmax. rewrite list_lookup_fmap. intros H.
  destruct (row !! j) as [x|]; simplify_eq/=. eauto.
Qed.

(** A filled position weighs at most [exp (fill - x)] against any
    position that kept its logit [x]. *)
Lemma softmax_filled_bound row j k w x fill :
  softmax row !! j = Some w → row !! j = Some fill → row !! k = Some x →
  w <= exp (fill - x).
Proof.
  intros Hw Hj Hk. apply softmax_lookup in Hw as (y & Hy & ->).
  rewrite Hj in Hy. simplify_eq.
  pose proof (Rsum_exp_lookup _ _ _ Hk) as Hle.
  pose proof (exp_pos x) as Hx. pose proof (exp_pos y) as Hy.
  unfold Rminus. rewrite exp_plus, exp_Ropp.
  apply Rmult_le_compat_l; [lra|].
  apply Rinv_le_contravar; lra.
Qed.

Lemma masked_fill_row_lookup row (mask : list bool) fill j x (b : bool) :
  row !! j = Some x → mask !! j = Some b →
  masked_fill_row row mask fill !! j = Some (if b then fill else x).
Proof.
  intros Hx Hb. unfold masked_fill_row.
  rewrite lookup_zip_with, Hx, Hb. done.
Qed.
End Softmax.

Section TopicWeights.
Open Scope R_scope.
Variable variant_name : string.
Variable head_num : nat.
Variable embedding_layer : list (list Z) → tensor3.
Variable dropouts : tensor3 → tensor3.
Variable topic_layer : tensor3 → tensor3.
Variable final : tensor3 → tensor3.
Variable user_att_layer : tensor3 → tensor2 * tensor2.
Variable user_encode_gru : tensor3 → tensor3 * tensor3.
Variable user_encode_seq : tensor3 → tensor3.
Variable user_final : tensor3 → tensor3.

(** Where a row of [topic_weight] comes from. *)
Lemma topic_weight_row input n h wn row :
  (extract_topic head_num embedding_layer dropouts topic_layer final input).2 !! n
  = Some wn →
  wn !! h = Some row →
  ∃ m ln lrow,
    news_mask input !! n = Some m
    ∧ topic_logits head_num embedding_layer dropouts topic_layer input !! n = Some ln
    ∧ ln !! h = Some lrow
    ∧ row = softmax (masked_fill_row lrow
                       (map (λ x, bool_decide (x = 0%Z)) m) neg_fill).
Proof.
  unfold extract_topic, topic_logits. cbn [snd].
  intros Hn Hh.
  rewrite list_lookup_fmap in Hn.
  destruct (masked_fill _ _ _ !! n) as [tn|] eqn:Htn; simplify_eq/=.
  rewrite list_lookup_fmap in Hh.
  destruct (tn !! h) as [r0|] eqn:Hr0; simplify_eq/=.
  unfold masked_fill in Htn. apply lookup_zip_with_Some in Htn
    as (ln & mn & -> & Hln & Hmn).
  apply lookup_zip_with_Some in Hr0 as (lrow & mrow & -> & Hlrow & Hmrow).
  unfold expand_mask in Hmn. rewrite list_lookup_fmap in Hmn.
  destruct (news_mask input !! n) as [m|] eqn:Hm; simplify_eq/=.
  apply lookup_replicate in Hmrow as [-> _].
  exists m, ln, lrow. done.
Qed.

(** C10: for a variant name other than "base", "base_att" and "bi_batm",
    [user_encoder] returns [input_feat["history_news"]] as it came in: no
    recurrent encoder, no topic projection, no attention pooling. *)
Theorem user_encoder_other_variant input :
  variant_name ≠ "base" → variant_name ≠ "base_att" → variant_name ≠ "bi_batm" →
  user_encoder variant_name head_num user_att_layer user_encode_gru
    user_encode_seq user_final input
  = Unpooled (history_news input).
Proof.
  intros H1 H2 H3. unfold user_encoder.
  by rewrite !bool_decide_eq_false_2.
Qed.
End TopicWeights.

Lemma user_encoder_other_variant_witness :
  user_encoder "variational_topic" 1 ex_att_layer ex_gru zero_layer ex_identity
    ex_input = Unpooled [[[1]; [1]]]%R.
Proof.
  apply (user_encoder_other_variant "variational_topic" 1 ex_att_layer ex_gru
           zero_layer ex_identity ex_input); discriminate.
Defined.

(** * Further properties *)

Import Rows Dumps Traces Reporting MoreExamples.
Close Scope R_scope.

Section MetricFacts.
Context {num mval : Type}.
Implicit Types (batch : batch_dict num) (pred : list (list num))
  (ms : list (metric num mval)).

Lemma slice_to_prefix {A} (n : Z) (l : list A) : slice_to n l `prefix_of` l.
Proof. unfold slice_to. destruct (0 <=? n)%Z; apply prefix_take. Qed.

Lemma slice_to_length_cases {A} (n : Z) (l : list A) :
  ((0 ≤ n)%Z → length (slice_to n l) = Z.to_nat n `min` length l)
  ∧ ((n < 0)%Z → length (slice_to n l) = length l - Z.to_nat (- n)).
Proof.
  unfold slice_to. split; intros Hn.
  - destruct (Z.leb_spec 0 n); [|lia]. apply length_take.
  - destruct (Z.leb_spec 0 n); [lia|]. rewrite length_take. lia.
Qed.

(** X1: what [label[i][:can_len[i]]] and [pred[i][:can_len[i]]] hand to a
    metric, for any candidate length.  Both arguments are leading segments
    of the padded rows; a candidate length beyond the padding is clipped
    to the row, and a negative one drops that many trailing entries; no
    candidate length makes the slicing fail. *)
Theorem metric_args_prefixes batch pred i lab p cl :
  label batch !! i = Some lab → pred !! i = Some p →
  candidate_length batch !! i = Some cl →
  ∃ l' p',
    metric_args batch pred i = Ok (l', p')
    ∧ l' `prefix_of` lab ∧ p' `prefix_of` p
    ∧ ((0 ≤ cl)%Z →
         length l' = Z.to_nat cl `min` length lab
         ∧ length p' = Z.to_nat cl `min` length p)
    ∧ ((cl < 0)%Z →
         length l' = length lab - Z.to_nat (- cl)
         ∧ length p' = length p - Z.to_nat (- cl)).
Proof.
  intros Hl Hp Hc. exists (slice_to cl lab), (slice_to cl p).
  split; [by apply metric_args_ok|].
  split; [apply slice_to_prefix|]. split; [apply slice_to_prefix|].
  split; intros Hcl; split; by apply slice_to_length_cases.
Qed.

Lemma apply_metrics_dom ms (l p : list num) (acc : gmap string mval) :
  dom (apply_metrics ms l p acc) = dom acc ∪ list_to_set (m_name <$> ms).
Proof.
  unfold apply_metrics. revert acc. induction ms as [|m ms IH]; intros acc; simpl.
  - set_solver.
  - rewrite IH, dom_insert_L. set_solver.
Qed.

Lemma apply_metrics_other ms (l p : list num) (acc : gmap string mval) name :
  name ∉ m_name <$> ms → apply_metrics ms l p acc !! name = acc !! name.
Proof.
  unfold apply_metrics. revert acc.
  induction ms as [|m ms IH]; intros acc Hnot; simpl; [done|].
  rewrite fmap_cons, not_elem_of_cons in Hnot. destruct Hnot as [Hne Hnot].
  rewrite IH by done. by rewrite lookup_insert_ne.
Qed.

(** X2: the result of an impression, by metric name.  The dictionary has
    exactly the names of the registered metrics as keys; a metric is found
    under its name with its value on the two arguments, unless a metric
    registered after it has the same name, in which case the later one
    replaces it. *)
Theorem metric_results_by_name ms (l p : list num) :
  dom (apply_metrics ms l p ∅) = list_to_set (m_name <$> ms)
  ∧ ∀ i m, ms !! i = Some m →
      (∀ j m', i < j → ms !! j = Some m' → m_name m' ≠ m_name m) →
      apply_metrics ms l p ∅ !! m_name m = Some (m_call m l p).
Proof.
  split.
  - rewrite apply_metrics_dom. set_solver.
  - generalize (∅ : gmap string mval). unfold apply_metrics.
    induction ms as [|m0 ms IH]; intros acc i m Hi Hlast; [done|].
    simpl. destruct i as [|i]; simplify_eq/=.
    + fold (apply_metrics ms l p (<[m_name m := m_call m l p]> acc)).
      rewrite apply_metrics_other; [by rewrite lookup_insert_eq|].
      intros Hin. apply list_elem_of_fmap in Hin as (m' & Heq & Hin).
      apply list_elem_of_lookup in Hin as [j Hj].
      apply (Hlast (S j) m'); [lia | done | done].
    + apply (IH _ i); [done|]. intros j m' Hlt Hj.
      apply (Hlast (S j) m'); [lia | done].
Qed.
End MetricFacts.

Section RowFacts.
Context {num mval : Type}.
Variable metric_funcs : list (metric num mval).
Variable model : batch_dict num → gmap string (list (list num)).
Implicit Types (batch : batch_dict num) (pred : list (list num))
  (out_dict : gmap string (list (list num)))
  (wd : gmap string (list (saved_item num mval))) (st : loop_state num mval).

Implicit Types (items : list (string * list (list num))).

Lemma getitem_lt {A} `{Inhabited A} (l : list A) i :
  i < length l → getitem l i = Ok (l !!! i).
Proof.
  intros Hi. apply getitem_Some. by apply list_lookup_lookup_total_lt.
Qed.

Lemma getitem_ge {A} (l : list A) i :
  length l ≤ i → getitem l i = Raise IndexError.
Proof. intros Hi. unfold getitem. by rewrite lookup_ge_None_2. Qed.

Lemma dd_append_lookup name (x : saved_item num mval) wd k :
  dd_append name x wd !!! k
  = wd !!! k ++ if bool_decide (k = name) then [x] else [].
Proof.
  unfold dd_append. case_bool_decide as Hk.
  - subst. by rewrite lookup_total_insert_eq.
  - rewrite lookup_total_insert_ne by done. by rewrite app_nil_r.
Qed.

Lemma collect_weights_ok items i cl hl wd :
  Forall (λ nw, contains "weight" nw.1 = true → i < length nw.2) items →
  ∃ wd', collect_weights items i cl hl wd = Ok wd'
    ∧ ∀ k, wd' !!! k = wd !!! k ++ weight_entries (mval:=mval) items i cl hl k.
Proof.
  intros Hok. revert wd. induction Hok as [|[name w] rest Hw Hrest IH]; intros wd.
  - exists wd. split; [done|]. intros k. simpl. by rewrite app_nil_r.
  - cbn [collect_weights weight_entries]. simpl in Hw.
    destruct (contains "weight" name) eqn:Hc.
    + rewrite (getitem_lt _ _ (Hw eq_refl)). cbn [mbind result_bind].
      destruct (IH (dd_append name
        (Array (slice_to (if contains "candidate" name then cl else hl) (w !!! i))) wd))
        as (wd' & -> & Hwd').
      exists wd'. split; [done|]. intros k. rewrite Hwd'. unfold dd_append.
      destruct (decide (name = k)) as [->|Hne].
      * rewrite lookup_total_insert_eq, bool_decide_eq_true_2 by done.
        simpl. by rewrite <- app_assoc.
      * rewrite lookup_total_insert_ne, bool_decide_eq_false_2 by done. done.
    + destruct (IH wd) as (wd' & -> & Hwd'). exists wd'. split; [done|].
      intros k. rewrite Hwd'. by rewrite andb_false_r.
Qed.

Lemma weight_entries_absent items i cl hl k :
  k ∉ items.*1 →
  weight_entries (mval:=mval) items i cl hl k = ([] : list (saved_item num mval)).
Proof.
  induction items as [|[name w] rest IH]; [done|]. simpl.
  rewrite not_elem_of_cons. intros [Hne Hk].
  rewrite bool_decide_eq_false_2 by done. simpl. by apply IH.
Qed.

Lemma weight_entries_present items i cl hl k w :
  NoDup items.*1 → (k, w) ∈ items →
  weight_entries (mval:=mval) items i cl hl k
  = if contains "weight" k then
      [Array (slice_to (if contains "candidate" k then cl else hl) (w !!! i))]
    else [].
Proof.
  induction items as [|[name w'] rest IH]; intros Hnd Hin.
  - by apply elem_of_nil in Hin.
  - simpl in Hnd. apply NoDup_cons in Hnd as [Hname Hnd]. simpl.
    apply elem_of_cons in Hin as [[= <- <-]|Hin].
    + rewrite bool_decide_eq_true_2 by done. simpl.
      rewrite (weight_entries_absent rest) by done.
      destruct (contains "weight" k); by rewrite ?app_nil_r.
    + rewrite bool_decide_eq_false_2.
      * simpl. by apply IH.
      * intros ->. apply Hname. apply list_elem_of_fmap. by exists (k, w).
Qed.

Lemma weight_entries_map out_dict i cl hl k :
  weight_entries (mval:=mval) (map_to_list out_dict) i cl hl k
  = match out_dict !! k with
    | Some w =>
        if contains "weight" k then
          [Array (slice_to (if contains "candidate" k then cl else hl) (w !!! i))]
        else []
    | None => []
    end.
Proof.
  destruct (out_dict !! k) as [w|] eqn:Hk.
  - apply weight_entries_present; [apply NoDup_fst_map_to_list|].
    by apply elem_of_map_to_list.
  - apply weight_entries_absent. intros Hin.
    apply list_elem_of_fmap in Hin as ([k' w] & -> & Hin).
    apply elem_of_map_to_list in Hin. simpl in Hk. congruence.
Qed.

Lemma eval_metrics_row batch pred i :
  i < length (label batch) → i < length (candidate_length batch) →
  i < length pred →
  eval_metrics metric_funcs batch pred i ∅
  = Ok (row_result metric_funcs batch pred i).
Proof.
  intros Hl Hc Hp. apply eval_metrics_ok. unfold metric_args.
  rewrite !getitem_lt by done. reflexivity.
Qed.

Lemma batch_ok_weights batch out_dict i :
  batch_ok true batch out_dict → i < length (label batch) →
  Forall (λ nw, contains "weight" nw.1 = true → i < length nw.2)
    (map_to_list out_dict).
Proof.
  intros (_ & _ & _ & Hw) Hi. destruct (Hw eq_refl) as (_ & _ & _ & Hall).
  apply Forall_forall. intros [name w] Hin Hc. simpl in *.
  apply elem_of_map_to_list in Hin. rewrite (Hall _ _ Hin Hc). done.
Qed.

(** One row: the result stored and the entries appended. *)
Lemma impression_row_ok return_weight batch out_dict pred i st :
  batch_ok return_weight batch out_dict → out_dict !! "pred" = Some pred →
  i < length (label batch) →
  ∃ st', impression_row metric_funcs return_weight batch out_dict pred i st = Ok st'
    ∧ result_dict st'
      = <[impression_index batch !!! i := row_result metric_funcs batch pred i]>
          (result_dict st)
    ∧ (return_weight = false → weight_dict st' = weight_dict st)
    ∧ ∀ k, weight_dict st' !!! k
           = weight_dict st !!! k
             ++ if return_weight then saved_row metric_funcs batch out_dict i k
                else [].
Proof.
  intros Hok Hpred Hi. pose proof Hok as (Hidx & Hcl & (pred' & Hpred' & Hplen) & Hw).
  rewrite Hpred in Hpred'. simplify_eq.
  unfold impression_row.
  rewrite (getitem_lt (impression_index batch)) by lia. cbn [mbind result_bind].
  rewrite eval_metrics_row by lia. cbn [mbind result_bind].
  destruct return_weight.
  - destruct (Hw eq_refl) as (Hci & Hhi & Hhl & _).
    rewrite !getitem_lt by lia. cbn [mbind result_bind].
    edestruct (collect_weights_ok (map_to_list out_dict) i) as (wd' & -> & Hwd');
      [exact (batch_ok_weights _ _ _ Hok Hi)|].
    cbn [mbind result_bind]. eexists. split; [reflexivity|]. split; [done|].
    split; [done|].
    intros k. cbn [weight_dict]. rewrite Hwd', weight_entries_map.
    rewrite !dd_append_lookup, <- !app_assoc. f_equal.
    unfold saved_row. rewrite (lookup_total_correct _ _ _ Hpred).
    clear Hpred Hwd'.
    repeat case_bool_decide; simplify_eq; try reflexivity;
      match goal with
      | |- context [match out_dict !! ?k with _ => _ end] =>
          destruct (out_dict !! k)
      end; reflexivity.
  - eexists. split; [reflexivity|]. split; [done|]. split; [done|].
    intros k. by rewrite app_nil_r.
Qed.


(** The rows of a batch, in order. *)
Lemma impression_rows_ok return_weight batch out_dict pred rows st :
  batch_ok return_weight batch out_dict → out_dict !! "pred" = Some pred →
  Forall (λ i, i < length (label batch)) rows →
  ∃ st', impression_rows metric_funcs return_weight batch out_dict pred rows st
         = Ok st'
    ∧ result_dict st'
      = foldl (λ rd i, <[impression_index batch !!! i
                         := row_result metric_funcs batch pred i]> rd)
          (result_dict st) rows
    ∧ (return_weight = false → weight_dict st' = weight_dict st)
    ∧ ∀ k, weight_dict st' !!! k
           = weight_dict st !!! k
             ++ if return_weight
                then rows ≫= (λ i, saved_row metric_funcs batch out_dict i k)
                else [].
Proof.
  intros Hok Hpred Hrows. revert st.
  induction Hrows as [|i rows Hi Hrows IH]; intros st.
  - exists st. split; [done|]. split; [done|]. split; [done|].
    intros k. destruct return_weight; by rewrite app_nil_r.
  - cbn [impression_rows].
    destruct (impression_row_ok return_weight batch out_dict pred i st Hok Hpred Hi)
      as (st1 & -> & Hr1 & Hf1 & Hw1).
    cbn [mbind result_bind].
    destruct (IH st1) as (st' & -> & Hr & Hf & Hw).
    exists st'. split; [done|]. split; [|split].
    + rewrite Hr, Hr1. done.
    + intros Hrw. rewrite Hf, Hf1; done.
    + intros k. rewrite Hw, Hw1. destruct return_weight.
      * rewrite bind_cons, <- app_assoc. done.
      * by rewrite !app_nil_r.
Qed.

Lemma fold_store_dom (f : nat → Z) (g : nat → gmap string mval) rows
    (rd : gmap Z (gmap string mval)) :
  dom (foldl (λ rd i, <[f i := g i]> rd) rd rows)
  = dom rd ∪ list_to_set (f <$> rows).
Proof.
  revert rd. induction rows as [|i rows IH]; intros rd; simpl.
  - set_solver.
  - rewrite IH, dom_insert_L. set_solver.
Qed.

Lemma fold_store_other (f : nat → Z) (g : nat → gmap string mval) rows
    (rd : gmap Z (gmap string mval)) index :
  index ∉ f <$> rows →
  foldl (λ rd i, <[f i := g i]> rd) rd rows !! index = rd !! index.
Proof.
  revert rd. induction rows as [|i rows IH]; intros rd Hnot; simpl; [done|].
  rewrite fmap_cons, not_elem_of_cons in Hnot. destruct Hnot as [Hne Hnot].
  rewrite IH by done. by rewrite lookup_insert_ne.
Qed.

Lemma fold_store_last (f : nat → Z) (g : nat → gmap string mval) rows
    (rd : gmap Z (gmap string mval)) k i :
  rows !! k = Some i →
  (∀ k' j, k < k' → rows !! k' = Some j → f j ≠ f i) →
  foldl (λ rd i, <[f i := g i]> rd) rd rows !! f i = Some (g i).
Proof.
  revert rd k. induction rows as [|i0 rows IH]; intros rd k Hk Hlast; [done|].
  simpl. destruct k as [|k]; simplify_eq/=.
  - rewrite fold_store_other; [by rewrite lookup_insert_eq|].
    intros Hin. apply list_elem_of_fmap in Hin as (j & Hj & Hin).
    apply list_elem_of_lookup in Hin as [k' Hk'].
    apply (Hlast (S k') j); [lia | done | done].
  - apply (IH _ k); [done|]. intros k' j Hlt Hj.
    apply (Hlast (S k') j); [lia | done].
Qed.

Lemma lookup_total_seq (l : list Z) :
  (λ i, l !!! i) <$> seq 0 (length l) = l.
Proof.
  apply list_eq. intros i. rewrite list_lookup_fmap.
  destruct (decide (i < length l)) as [Hi|Hi].
  - rewrite lookup_seq_lt by done. simpl.
    by rewrite (list_lookup_lookup_total_lt l i).
  - rewrite lookup_seq_ge by lia. simpl. by rewrite lookup_ge_None_2 by lia.
Qed.
End RowFacts.

Section LoopFacts.
Context {num mval : Type}.
Variable metric_funcs : list (metric num mval).
Variable model : batch_dict num → gmap string (list (list num)).
Implicit Types (batch : batch_dict num) (st : loop_state num mval)
  (batches : list (batch_dict num)).

Lemma validate_batch_ok return_weight batch st :
  batch_ok return_weight batch (model batch) →
  ∃ st', validate_batch metric_funcs return_weight model batch st = Ok st'
    ∧ result_dict st'
      = foldl (λ rd i, <[impression_index batch !!! i
                         := row_result metric_funcs batch (model batch !!! "pred") i]> rd)
          (result_dict st) (seq 0 (length (label batch)))
    ∧ (return_weight = false → weight_dict st' = weight_dict st)
    ∧ ∀ k, weight_dict st' !!! k
           = weight_dict st !!! k
             ++ if return_weight
                then seq 0 (length (label batch))
                     ≫= (λ i, saved_row metric_funcs batch (model batch) i k)
                else [].
Proof.
  intros Hok. pose proof Hok as (_ & _ & (pred & Hpred & _) & _).
  unfold validate_batch, dict_getitem. rewrite Hpred. cbn [mbind result_bind].
  rewrite (lookup_total_correct _ _ _ Hpred).
  apply impression_rows_ok; [done | done |].
  apply Forall_forall. intros i Hi. apply elem_of_seq in Hi. lia.
Qed.

(** X3: a well-shaped batch is evaluated without error; [result_dict] gains
    exactly the impression indices of the batch; the entry of an index is
    the metric results of the last row that carries it, computed on the
    truncated rows; the other entries are kept. *)
Theorem validate_batch_results return_weight batch st :
  batch_ok return_weight batch (model batch) →
  ∃ st', validate_batch metric_funcs return_weight model batch st = Ok st'
    ∧ dom (result_dict st')
      = dom (result_dict st) ∪ list_to_set (impression_index batch)
    ∧ (∀ i index,
         impression_index batch !! i = Some index →
         (∀ j, i < j → impression_index batch !! j ≠ Some index) →
         result_dict st' !! index
         = Some (row_result metric_funcs batch (model batch !!! "pred") i))
    ∧ (∀ index, index ∉ impression_index batch →
         result_dict st' !! index = result_dict st !! index).
Proof.
  intros Hok. destruct (validate_batch_ok return_weight batch st Hok)
    as (st' & Hst' & Hr & _).
  pose proof Hok as (Hlen & _).
  exists st'. split; [done|]. rewrite Hr. split; [|split].
  - rewrite fold_store_dom, <- Hlen, lookup_total_seq. done.
  - intros i index Hi Hlast.
    assert (i < length (impression_index batch)) as Hlt by by eapply lookup_lt_Some.
    rewrite <- (list_lookup_total_correct _ _ _ Hi).
    apply (fold_store_last (λ i, impression_index batch !!! i) _ _ _ i i).
    + apply lookup_seq_lt. lia.
    + intros k' j Hk' Hj. apply lookup_seq in Hj as [-> Hj]. simpl.
      rewrite (list_lookup_total_correct _ _ _ Hi). intros Heq.
      apply (Hlast k'); [done|]. rewrite <- Heq.
      apply list_lookup_lookup_total_lt. lia.
  - intros index Hnot. apply fold_store_other.
    by rewrite <- Hlen, lookup_total_seq.
Qed.

Lemma saved_row_field batch out_dict i k :
  k ∈ saved_fields → length (saved_row metric_funcs batch out_dict i k) = 1.
Proof.
  intros Hk. unfold saved_fields in Hk. unfold saved_row.
  repeat (apply elem_of_cons in Hk as [->|Hk]; [reflexivity|]).
  by apply elem_of_nil in Hk.
Qed.

Lemma length_bind_const {A B} (f : A → list B) (l : list A) n :
  (∀ x, length (f x) = n) → length (l ≫= f) = length l * n.
Proof.
  intros Hf. induction l as [|x l IH]; [done|].
  rewrite bind_cons, length_app, IH, Hf. simpl. lia.
Qed.

(** X4: with weight export on, a well-shaped batch appends to every field
    of [weight_dict] the entries of its rows in row order: one entry per
    impression for the six saved fields and for every output whose name
    contains "weight" (cut to the candidate length when the name contains
    "candidate", to the history length otherwise), none for any other
    name. *)
Theorem validate_batch_weights batch st :
  batch_ok true batch (model batch) →
  ∃ st', validate_batch metric_funcs true model batch st = Ok st'
    ∧ (∀ k, weight_dict st' !!! k
            = weight_dict st !!! k
              ++ (seq 0 (length (label batch))
                  ≫= λ i, saved_row metric_funcs batch (model batch) i k))
    ∧ (∀ k, k ∈ saved_fields →
            length (weight_dict st' !!! k)
            = length (weight_dict st !!! k) + length (label batch)).
Proof.
  intros Hok. destruct (validate_batch_ok true batch st Hok)
    as (st' & Hst' & _ & _ & Hw).
  exists st'. split; [done|]. split; [done|].
  intros k Hk. rewrite Hw, length_app.
  rewrite (length_bind_const _ _ 1), length_seq; [lia|].
  intros i. by apply saved_row_field.
Qed.

Lemma validate_batches_ok return_weight batches st :
  Forall (λ b, batch_ok return_weight b (model b)) batches →
  ∃ st', validate_batches metric_funcs return_weight model batches st = Ok st'
    ∧ dom (result_dict st')
      = dom (result_dict st) ∪ list_to_set (all_indices batches)
    ∧ (return_weight = false → weight_dict st' = weight_dict st)
    ∧ (return_weight = true → ∀ k, k ∈ saved_fields →
         length (weight_dict st' !!! k)
         = length (weight_dict st !!! k) + impressions batches).
Proof.
  intros Hok. revert st. induction Hok as [|b batches Hb Hrest IH]; intros st.
  - exists st. split; [done|]. split; [|split].
    + unfold all_indices. simpl. set_solver.
    + done.
    + intros _ k _. unfold impressions. simpl. lia.
  - cbn [validate_batches].
    destruct (validate_batch_ok return_weight b st Hb) as (st1' & -> & Hr1 & Hf1 & Hw1).
    assert (dom (result_dict st1')
            = dom (result_dict st) ∪ list_to_set (impression_index b)) as Hd1.
    { destruct Hb as (Hlen & _).
      rewrite Hr1, fold_store_dom, <- Hlen, lookup_total_seq. done. }
    cbn [mbind result_bind].
    destruct (IH st1') as (st' & -> & Hd & Hf & Hw).
    exists st'. split; [done|]. split; [|split].
    + rewrite Hd, Hd1. unfold all_indices. rewrite bind_cons, list_to_set_app_L.
      set_solver.
    + intros Hrw. rewrite Hf, Hf1; done.
    + intros -> k Hk. rewrite (Hw eq_refl k Hk), Hw1, length_app.
      rewrite (length_bind_const _ _ 1), length_seq by (intros; by apply saved_row_field).
      unfold impressions. rewrite fmap_cons. simpl. lia.
Qed.

(** Without weight export every batch is evaluated and nothing is
    collected, whatever [saved_weight_num]. *)
Lemma loop_without_export saved_weight_num batches st :
  Forall (λ b, batch_ok false b (model b)) batches →
  ∃ st', impression_loop metric_funcs false saved_weight_num model 0 batches st
         = Ok st'
    ∧ dom (result_dict st')
      = dom (result_dict st) ∪ list_to_set (all_indices batches)
    ∧ weight_dict st' = weight_dict st.
Proof.
  intros Hok. rewrite impression_loop_no_export.
  destruct (validate_batches_ok false batches st Hok) as (st' & Hst' & Hd & Hf & _).
  exists st'. auto.
Qed.

(** With weight export the six saved fields grow together. *)
Lemma loop_with_export saved_weight_num batches :
  Forall (λ b, batch_ok true b (model b)) batches →
  ∃ st', impression_loop metric_funcs true saved_weight_num model 0 batches
           initial_state = Ok st'
    ∧ dom (result_dict st')
      = list_to_set (all_indices (take (Z.to_nat saved_weight_num + 1) batches))
    ∧ ∀ k, k ∈ saved_fields →
        length (weight_dict st' !!! k)
        = impressions (take (Z.to_nat saved_weight_num + 1) batches).
Proof.
  intros Hok. rewrite impression_loop_export, Z.sub_0_r.
  destruct (validate_batches_ok true
              (take (Z.to_nat saved_weight_num + 1) batches) initial_state)
    as (st' & Hst' & Hd & _ & Hw); [by apply Forall_take|].
  exists st'. split; [done|]. split.
  - rewrite Hd. simpl. set_solver.
  - intros k Hk. rewrite (Hw eq_refl k Hk). simpl.
    by rewrite lookup_total_empty.
Qed.
End LoopFacts.

Section ValidEpochFacts.
Context {num mval embeds log : Type}.
Variable metric_funcs : list (metric num mval).
Variable model : batch_dict num → gmap string (list (list num)).
Variable config : Configuration.
Variable get_news_embeds : result embeds.
Variable valid_loader : option embeds → list (batch_dict num).
Variable gather_dict : gmap Z (gmap string mval) → gmap Z (gmap string mval).
Variable average : gmap Z (gmap string mval) → log.
Variable topic_evaluation : log → log.
Variable is_main_process : bool.

(** X5: validation without weight export.  When [return_weight] is off,
    the cache block returned and the loader is well shaped, [_valid_epoch]
    returns: every impression of the loader has an entry in the results
    that are gathered and averaged (with the topic evaluation merged in
    when both of its options are set), whatever [saved_weight_num] is, and
    the weight file is left as it was. *)
Theorem valid_epoch_without_export file news_embeds :
  get (cfg_return_weight config) false = false →
  try_news_embeds config get_news_embeds = Ok news_embeds →
  Forall (λ b, batch_ok false b (model b)) (valid_loader news_embeds) →
  ∃ results,
    _valid_epoch metric_funcs model config get_news_embeds valid_loader
      gather_dict average topic_evaluation is_main_process file
    = Ok (let eval_result := average (gather_dict results) in
          if get (cfg_evaluate_topic_by_epoch config) false
             && match cfg_topic_evaluation_method config with
                | Some method => negb (bool_decide (method = ""))
                | None => false
                end
          then topic_evaluation eval_result else eval_result,
          file)
    ∧ dom results = list_to_set (all_indices (valid_loader news_embeds)).
Proof.
  intros Hrw Hne Hok. unfold _valid_epoch. rewrite Hrw, Hne.
  cbn [mbind result_bind].
  destruct (loop_without_export metric_funcs model
              (get (cfg_saved_weight_num config) 250%Z)
              (valid_loader news_embeds) initial_state Hok)
    as (st & -> & Hd & _).
  cbn [mbind result_bind andb]. exists (result_dict st). split; [done|].
  rewrite Hd. simpl. set_solver.
Qed.

(** X6: the first export.  With [return_weight] on, on the main process
    and with no prior weight file, [_valid_epoch] on a well-shaped loader
    writes a file in which the six saved fields are aligned: each holds
    one entry per impression of the batches that were run (the first
    [saved_weight_num + 1]), and the averaged results cover exactly these
    impressions. *)
Theorem valid_epoch_first_export news_embeds :
  get (cfg_return_weight config) false = true →
  is_main_process = true →
  try_news_embeds config get_news_embeds = Ok news_embeds →
  Forall (λ b, batch_ok true b (model b)) (valid_loader news_embeds) →
  let run := take (Z.to_nat (get (cfg_saved_weight_num config) 250%Z) + 1)
               (valid_loader news_embeds) in
  ∃ results eval_result saved,
    _valid_epoch metric_funcs model config get_news_embeds valid_loader
      gather_dict average topic_evaluation is_main_process None
    = Ok (eval_result, Some saved)
    ∧ (eval_result = average (gather_dict results)
       ∨ eval_result = topic_evaluation (average (gather_dict results)))
    ∧ dom results = list_to_set (all_indices run)
    ∧ ∀ k, k ∈ saved_fields → length (saved !!! k) = impressions run.
Proof.
  intros Hrw Hmain Hne Hok run. unfold _valid_epoch. rewrite Hrw, Hne, Hmain.
  cbn [mbind result_bind].
  destruct (loop_with_export metric_funcs model
              (get (cfg_saved_weight_num config) 250%Z)
              (valid_loader news_embeds) Hok)
    as (st & -> & Hd & Hw).
  cbn [mbind result_bind andb save_weights].
  eexists (result_dict st), _, (weight_dict st). split; [reflexivity|].
  split; [|split; [exact Hd | exact Hw]].
  destruct (get (cfg_evaluate_topic_by_epoch config) false && _); auto.
Qed.

(** X7: an output without "pred".  When the model output of the first
    batch has no "pred", [_valid_epoch] raises KeyError: the [try] block
    only guards the construction of the cache, not the loop. *)
Theorem missing_pred_aborts_validation file news_embeds batch rest :
  try_news_embeds config get_news_embeds = Ok news_embeds →
  valid_loader news_embeds = batch :: rest →
  model batch !! "pred" = None →
  _valid_epoch metric_funcs model config get_news_embeds valid_loader
    gather_dict average topic_evaluation is_main_process file
  = Raise KeyError.
Proof.
  intros Hne Hloader Hpred. unfold _valid_epoch. rewrite Hne.
  cbn [mbind result_bind]. rewrite Hloader. cbn [impression_loop].
  unfold validate_batch, dict_getitem. by rewrite Hpred.
Qed.
End ValidEpochFacts.

Section SaveFacts.
Context {num mval : Type}.
Implicit Types (old wd : gmap string (list (saved_item num mval)))
  (dumps : list (gmap string (list (saved_item num mval)))).

(** X8: the merge with a prior file succeeds exactly when every field of
    the current dump occurs in the prior file; a field the prior file
    lacks makes the save raise KeyError. *)
Theorem save_needs_prior_fields wd old :
  ((∃ saved, save_weights wd (Some old) = Ok saved) ↔ dom wd ⊆ dom old)
  ∧ (∀ k, k ∈ dom wd → k ∉ dom old → save_weights wd (Some old) = Raise KeyError).
Proof.
  assert (∀ k, k ∈ dom wd → k ∉ dom old →
               save_weights wd (Some old) = Raise KeyError) as Hraise.
  { intros k Hk Hold. unfold save_weights.
    rewrite (extend_fields_missing _ old wd k); [done | |].
    - apply elem_of_keys. by apply elem_of_dom.
    - by apply not_elem_of_dom. }
  split; [|done]. split.
  - intros [saved Hs] k Hk. destruct (decide (k ∈ dom old)) as [|Hold]; [done|].
    rewrite (Hraise k Hk Hold) in Hs. discriminate.
  - intros Hsub. destruct (save_weights_merge wd old Hsub) as (saved & -> & _). eauto.
Qed.

Lemma fields_chain_last dumps (prev : gset string) d :
  fields_chain prev dumps → last dumps = Some d → dom d ⊆ prev.
Proof.
  revert prev. induction dumps as [|d0 ds IH]; intros prev Hc Hl; [done|].
  destruct Hc as [Hs Hc]. destruct ds as [|d1 ds].
  - simpl in Hl. by simplify_eq.
  - rewrite last_cons_cons in Hl. etrans; [by eapply IH|done].
Qed.

Lemma save_all_chain dumps old :
  fields_chain (dom old) dumps →
  ∃ saved, save_all dumps (Some old) = Ok (Some saved)
    ∧ dom saved = dom (default old (last dumps))
    ∧ ∀ k, k ∈ dom saved → saved !!! k = newest_first dumps k ++ old !!! k.
Proof.
  revert old. induction dumps as [|wd rest IH]; intros old Hchain.
  - exists old. split; [done|]. split; [done|]. intros k _. done.
  - destruct Hchain as [Hsub Hchain]. cbn [save_all].
    destruct (save_weights_merge wd old Hsub) as (f1 & -> & Hf1).
    cbn [mbind result_bind].
    assert (dom f1 = dom wd) as Hdom.
    { apply set_eq. intros k. rewrite !elem_of_dom, Hf1, fmap_is_Some. done. }
    assert (fields_chain (dom f1) rest) as Hc1 by (by rewrite Hdom).
    destruct (IH f1 Hc1) as (saved & -> & Hd & Hs).
    exists saved. split; [done|]. split.
    + rewrite Hd. destruct rest as [|wd' rest]; [done|].
      rewrite last_cons_cons.
      destruct (last (wd' :: rest)) eqn:Hl; [done|]. by apply last_None in Hl.
    + intros k Hk. rewrite (Hs k Hk).
      assert (k ∈ dom wd) as Hkwd.
      { rewrite Hd in Hk. destruct (last rest) as [d|] eqn:Hl; simpl in Hk.
        - by apply (fields_chain_last _ _ _ Hchain Hl).
        - by rewrite <- Hdom. }
      apply elem_of_dom in Hkwd as [v Hv].
      unfold newest_first. rewrite fmap_cons, reverse_cons, concat_app. simpl.
      rewrite app_nil_r, <- app_assoc. f_equal.
      apply lookup_total_correct. rewrite Hf1, Hv. simpl.
      by rewrite (lookup_total_correct _ _ _ Hv).
Qed.

(** X9: saves accumulate newest first.  After a first dump is saved on no
    prior file and further dumps are saved in turn, each with its fields
    among those of the one before, the file holds the fields of the last
    dump, and each of them is the concatenation of that field over all
    the dumps, from the last saved to the first. *)
Theorem saves_accumulate_newest_first first dumps :
  fields_chain (dom first) dumps →
  ∃ saved, save_all (first :: dumps) None = Ok (Some saved)
    ∧ dom saved = dom (default first (last dumps))
    ∧ ∀ k, k ∈ dom saved → saved !!! k = newest_first (first :: dumps) k.
Proof.
  intros Hchain. cbn [save_all save_weights mbind result_bind].
  destruct (save_all_chain dumps first Hchain) as (saved & -> & Hd & Hs).
  exists saved. split; [done|]. split; [done|].
  intros k Hk. rewrite (Hs k Hk). unfold newest_first.
  rewrite fmap_cons, reverse_cons, concat_app. simpl. by rewrite app_nil_r.
Qed.
End SaveFacts.

Section EpochFacts.
Context {T scalar : Type}.
Variable tadd : T → T → T.
Variable scale : scalar → T → T.
Variable model : gmap string T → gmap string T.
Variable criterion : T → T → T.
Implicit Types (self : MindRSTrainer scalar) (batch_dict : gmap string T).

Lemma interval_points_spec every len batch_idx n k :
  k ∈ interval_points every len batch_idx n
  ↔ (batch_idx ≤ k < batch_idx + Z.of_nat n
     ∧ (k + 1) mod every = 0 ∧ k + 1 < len)%Z.
Proof.
  revert batch_idx. induction n as [|n IH]; intros batch_idx.
  - simpl. rewrite elem_of_nil. lia.
  - cbn [interval_points]. rewrite elem_of_app, IH.
    destruct (Z.eqb_spec ((batch_idx + 1) mod every) 0) as [Hm|Hm];
      destruct (Z.ltb_spec (batch_idx + 1) len) as [Hl|Hl]; simpl;
      rewrite ?elem_of_nil, ?list_elem_of_singleton.
    + split.
      * intros [->|H]; lia.
      * intros H. destruct (decide (k = batch_idx)); [by left | right; lia].
    + split; [intros [[]|H]; lia|]. intros H. right.
      destruct (decide (k = batch_idx)); [subst; lia | lia].
    + split; [intros [[]|H]; lia|]. intros H. right.
      destruct (decide (k = batch_idx)); [subst; lia | lia].
    + split; [intros [[]|H]; lia|]. intros H. right.
      destruct (decide (k = batch_idx)); [subst; lia | lia].
Qed.

Lemma interval_points_none every len batch_idx n :
  (0 ≤ batch_idx)%Z → (len ≤ every)%Z →
  interval_points every len batch_idx n = [].
Proof.
  intros Hidx Hlen. apply elem_of_nil_inv. intros k Hk.
  apply interval_points_spec in Hk as (Hr & Hm & Hl).
  rewrite Z.mod_small in Hm; lia.
Qed.

Lemma backward_losses_app (tr1 tr2 : list (event T)) :
  backward_losses (tr1 ++ tr2) = backward_losses tr1 ++ backward_losses tr2.
Proof. apply omap_app. Qed.

Lemma set_steps_app (tr1 tr2 : list (event T)) :
  set_steps (tr1 ++ tr2) = set_steps tr1 ++ set_steps tr2.
Proof. apply omap_app. Qed.

(** What the events after the gradient step contribute. *)
Lemma description_obs (b : bool) (d : list (description_part T)) :
  let evs : list (event T) := if b then [SetDescription d] else [] in
  backward_losses evs = [] ∧ set_steps evs = [] ∧ validations evs = [].
Proof. by destruct b. Qed.

Lemma validation_obs (b : bool) (epoch batch_idx : Z) :
  let evs : list (event T) :=
    if b then [Validation epoch batch_idx true] else [] in
  backward_losses evs = [] ∧ set_steps evs = []
  ∧ validations evs = (λ k, (k, true)) <$> (if b then [batch_idx] else []).
Proof. by destruct b. Qed.

(** The loop when the [break] is not met. *)
Lemma train_loop_run self epoch len every batches batch_idx :
  math_ceil (int_to_float len * valid_interval self)%float = Ok every →
  every ≠ 0%Z → log_step (super self) ≠ 0%Z →
  Forall (step_ok tadd scale model criterion self) batches →
  (∀ k, batch_idx ≤ k < batch_idx + Z.of_nat (List.length batches) →
        k ≠ len_epoch (super self))%Z →
  ∃ trace,
    train_loop tadd scale model criterion self epoch len batch_idx batches
    = Ok trace
    ∧ List.length (backward_losses trace) = List.length batches
    ∧ set_steps trace
      = (λ i, (epoch - 1) * len_epoch (super self) + i)%Z
        <$> seqZ batch_idx (Z.of_nat (List.length batches)).
Proof.
  intros Hceil Hevery Hlog Hok. revert batch_idx.
  induction Hok as [|b rest Hb Hrest IH]; intros batch_idx Hbreak.
  - exists []. done.
  - destruct (Hb epoch batch_idx) as [[evs d] Hstep].
    destruct (IH (batch_idx + 1)%Z) as (trace & Htrace & Hbw & Hsteps).
    { intros k Hk. apply Hbreak. simpl List.length. lia. }
    cbn [train_loop]. rewrite Hstep. cbn [mbind result_bind].
    rewrite (int_mod_ok _ _ Hlog). cbn [mbind result_bind].
    rewrite (proj2 (Z.eqb_neq batch_idx _)); [|apply Hbreak; simpl List.length; lia].
    rewrite Hceil. cbn [mbind result_bind].
    rewrite (int_mod_ok _ _ Hevery). cbn [mbind result_bind].
    rewrite Htrace. cbn [mbind result_bind].
    eexists. split; [reflexivity|].
    apply train_step_shape in Hstep as [loss ->].
    rewrite <- !app_assoc.
    rewrite !backward_losses_app, !set_steps_app, Hsteps.
    destruct (description_obs (batch_idx mod log_step (super self) =? 0)%Z d)
      as (-> & -> & _).
    destruct (validation_obs
                (((batch_idx + 1) mod every =? 0)%Z && (batch_idx + 1 <? len)%Z)
                epoch batch_idx) as (-> & -> & _).
    split.
    + simpl. by rewrite Hbw.
    + simpl List.length. rewrite (seqZ_cons batch_idx) by lia. simpl.
      do 3 f_equal; lia.
Qed.

(** The loop when the [break] is met at [len_epoch]. *)
Lemma train_loop_break self epoch len every batches batch_idx :
  math_ceil (int_to_float len * valid_interval self)%float = Ok every →
  every ≠ 0%Z → log_step (super self) ≠ 0%Z →
  Forall (step_ok tadd scale model criterion self) batches →
  (batch_idx ≤ len_epoch (super self)
   < batch_idx + Z.of_nat (List.length batches))%Z →
  ∃ trace,
    train_loop tadd scale model criterion self epoch len batch_idx batches
    = Ok trace
    ∧ List.length (backward_losses trace)
      = S (Z.to_nat (len_epoch (super self) - batch_idx))
    ∧ set_steps trace
      = (λ i, (epoch - 1) * len_epoch (super self) + i)%Z
        <$> seqZ batch_idx (len_epoch (super self) - batch_idx + 1)
    ∧ validations trace
      = (λ k, (k, true))
        <$> interval_points every len batch_idx
              (Z.to_nat (len_epoch (super self) - batch_idx)).
Proof.
  intros Hceil Hevery Hlog Hok. revert batch_idx.
  induction Hok as [|b rest Hb Hrest IH]; intros batch_idx Hbreak.
  - simpl in Hbreak. lia.
  - destruct (Hb epoch batch_idx) as [[evs d] Hstep].
    cbn [train_loop]. rewrite Hstep. cbn [mbind result_bind].
    rewrite (int_mod_ok _ _ Hlog). cbn [mbind result_bind].
    apply train_step_shape in Hstep as [loss ->].
    destruct (Z.eqb_spec batch_idx (len_epoch (super self))) as [Heq|Hne].
    + eexists. split; [reflexivity|]. rewrite <- Heq.
      replace (batch_idx - batch_idx)%Z with 0%Z by lia.
      destruct (batch_idx mod log_step (super self) =? 0)%Z;
        repeat split; reflexivity.
    + destruct (IH (batch_idx + 1)%Z) as (trace & Htrace & Hbw & Hsteps & Hval).
      { simpl List.length in Hbreak. lia. }
      rewrite Hceil. cbn [mbind result_bind].
      rewrite (int_mod_ok _ _ Hevery). cbn [mbind result_bind].
      rewrite Htrace. cbn [mbind result_bind].
      eexists. split; [reflexivity|].
      rewrite <- !app_assoc.
      rewrite !backward_losses_app, !set_steps_app, !validations_app.
      rewrite Hsteps, Hval.
      destruct (description_obs (batch_idx mod log_step (super self) =? 0)%Z d)
        as (-> & -> & ->).
      destruct (validation_obs
                  (((batch_idx + 1) mod every =? 0)%Z && (batch_idx + 1 <? len)%Z)
                  epoch batch_idx) as (-> & -> & ->).
      replace (Z.to_nat (len_epoch (super self) - batch_idx))
        with (S (Z.to_nat (len_epoch (super self) - (batch_idx + 1)))) by lia.
      split; [|split].
      * simpl. by rewrite Hbw.
      * rewrite (seqZ_cons batch_idx) by lia. simpl. do 3 f_equal; lia.
      * cbn [interval_points]. rewrite fmap_app. reflexivity.
Qed.

(** X10: the validation schedule of an epoch that runs to its end (no step
    raises, [len_epoch] is not met).  [_validation] is called with
    monitoring at exactly the batch indices [k] of the loader with
    [(k + 1) mod every = 0] and [k + 1 < length], [every] being the
    rounded-up period, in increasing order, then once without monitoring
    with [batch_idx = length]; every batch gets one backward pass.  When
    the period is not below the loader length only the final validation
    runs. *)
Theorem interval_schedule self epoch (train_loader : list (gmap string T)) every :
  let n := Z.of_nat (List.length train_loader) in
  math_ceil (int_to_float n * valid_interval self)%float = Ok every →
  every ≠ 0%Z → log_step (super self) ≠ 0%Z →
  Forall (step_ok tadd scale model criterion self) train_loader →
  (len_epoch (super self) < 0 ∨ n ≤ len_epoch (super self))%Z →
  ∃ trace, _train_epoch tadd scale model criterion self epoch train_loader = Ok trace
    ∧ validations trace
      = ((λ k, (k, true)) <$> interval_points every n 0 (List.length train_loader))
        ++ [(n, false)]
    ∧ (∀ k, (k, true) ∈ validations trace
            ↔ (0 ≤ k ∧ (k + 1) mod every = 0 ∧ k + 1 < n)%Z)
    ∧ List.length (backward_losses trace) = List.length train_loader
    ∧ ((n ≤ every)%Z → validations trace = [(n, false)]).
Proof.
  intros n Hceil Hevery Hlog Hok Hbreak. unfold _train_epoch. fold n.
  destruct (train_loop_validations tadd scale model criterion self epoch n every
              train_loader 0 Hceil Hevery Hlog Hok) as (trace & Htrace & Hval).
  { intros k Hk. fold n in Hk. lia. }
  destruct (train_loop_run self epoch n every train_loader 0 Hceil Hevery Hlog Hok)
    as (trace' & Htrace' & Hbw & _).
  { intros k Hk. fold n in Hk. lia. }
  rewrite Htrace in Htrace'. simplify_eq. rewrite Htrace.
  cbn [mbind result_bind]. eexists. split; [reflexivity|].
  assert (validations
            ([ModelTrain; ResetTrainMetrics] ++ trace'
             ++ (if lr_scheduler (super self) then [SchedulerStep] else [])
             ++ [Validation epoch n false])
          = ((λ k, (k, true)) <$> interval_points every n 0 (List.length train_loader))
            ++ [(n, false)]) as Hall.
  { rewrite !validations_app, Hval. by destruct (lr_scheduler (super self)). }
  split; [exact Hall|]. split; [|split].
  - intros k. rewrite Hall, elem_of_app, list_elem_of_singleton.
    rewrite list_elem_of_fmap. split.
    + intros [(k' & [= ->] & Hk)|[= _ ?]].
      apply interval_points_spec in Hk. fold n in Hk. lia.
    + intros Hk. left. exists k. split; [done|].
      apply interval_points_spec. fold n. lia.
  - rewrite !backward_losses_app, !length_app, Hbw.
    destruct (lr_scheduler (super self)); simpl; lia.
  - intros Hle. rewrite Hall, interval_points_none by lia. done.
Qed.

(** X11: the early stop.  When [0 <= len_epoch < length] the loop breaks at
    [batch_idx = len_epoch], after the gradient step of that batch: the
    epoch runs [len_epoch + 1] batches, with global steps
    [(epoch - 1) * len_epoch + i] for [i] from 0 to [len_epoch]; interval
    validation is only tried on the batches before the last one run, and
    the final validation still reports [batch_idx = length]. *)
Theorem early_stop_runs_one_more self epoch (train_loader : list (gmap string T)) every :
  let n := Z.of_nat (List.length train_loader) in
  math_ceil (int_to_float n * valid_interval self)%float = Ok every →
  every ≠ 0%Z → log_step (super self) ≠ 0%Z →
  Forall (step_ok tadd scale model criterion self) train_loader →
  (0 ≤ len_epoch (super self) < n)%Z →
  ∃ trace, _train_epoch tadd scale model criterion self epoch train_loader = Ok trace
    ∧ List.length (backward_losses trace) = S (Z.to_nat (len_epoch (super self)))
    ∧ set_steps trace
      = (λ i, (epoch - 1) * len_epoch (super self) + i)%Z
        <$> seqZ 0 (len_epoch (super self) + 1)
    ∧ validations trace
      = ((λ k, (k, true))
         <$> interval_points every n 0 (Z.to_nat (len_epoch (super self))))
        ++ [(n, false)].
Proof.
  intros n Hceil Hevery Hlog Hok Hbreak. unfold _train_epoch. fold n.
  destruct (train_loop_break self epoch n every train_loader 0 Hceil Hevery Hlog Hok)
    as (trace & -> & Hbw & Hsteps & Hval).
  { fold n. lia. }
  rewrite Z.sub_0_r in Hbw, Hsteps, Hval.
  cbn [mbind result_bind]. eexists. split; [reflexivity|].
  rewrite !backward_losses_app, !set_steps_app, !validations_app, !length_app.
  rewrite Hbw, Hsteps, Hval.
  destruct (lr_scheduler (super self)); simpl; rewrite ?app_nil_r;
    (split; [lia|done]).
Qed.

(** X12: division by zero.  On a loader whose first batch trains without
    error, the epoch raises ZeroDivisionError when [log_step] is 0, and
    when the rounded-up validation period is 0 unless [len_epoch = 0]
    stops the loop at the first batch. *)
Theorem zero_divisor_aborts_epoch self epoch batch_dict
    (rest : list (gmap string T)) :
  let n := Z.of_nat (List.length (batch_dict :: rest)) in
  step_ok tadd scale model criterion self batch_dict →
  log_step (super self) = 0%Z
  ∨ (len_epoch (super self) ≠ 0%Z
     ∧ math_ceil (int_to_float n * valid_interval self)%float = Ok 0%Z) →
  _train_epoch tadd scale model criterion self epoch (batch_dict :: rest)
  = Raise ZeroDivisionError.
Proof.
  intros n Hstep Hzero. unfold _train_epoch. fold n. cbn [train_loop].
  destruct (Hstep epoch 0%Z) as [[evs d] ->]. cbn [mbind result_bind].
  destruct Hzero as [Hlog|[Hlen Hceil]].
  - rewrite Hlog. reflexivity.
  - destruct (int_mod 0 (log_step (super self))) as [r|c] eqn:Hr.
    + cbn [mbind result_bind].
      rewrite (proj2 (Z.eqb_neq 0 _)) by done.
      rewrite Hceil. reflexivity.
    + unfold int_mod in Hr. destruct (log_step (super self) =? 0)%Z; by simplify_eq.
Qed.

(** X13: the outputs a step needs.  With [pred] and [label] present, the
    training step raises KeyError when [entropy_constraint] is on and the
    model output has no "entropy", and when the topic variant is
    "variational_topic" and the output has no "kl_divergence" (a value the
    loss does not use); an epoch whose first batch is such a batch raises
    KeyError. *)
Theorem train_step_needs_outputs self epoch batch_idx batch_dict pred lab
    (rest : list (gmap string T)) :
  model batch_dict !! "pred" = Some pred →
  batch_dict !! "label" = Some lab →
  (entropy_constraint (super self) = true ∧ model batch_dict !! "entropy" = None)
  ∨ (topic_variant self = "variational_topic"
     ∧ model batch_dict !! "kl_divergence" = None) →
  train_step tadd scale model criterion self epoch batch_idx batch_dict
  = Raise KeyError
  ∧ _train_epoch tadd scale model criterion self epoch (batch_dict :: rest)
    = Raise KeyError.
Proof.
  intros Hpred Hlab Hmiss.
  assert (∀ idx, train_step tadd scale model criterion self epoch idx batch_dict
                 = Raise KeyError) as Hstep.
  { intros idx. unfold train_step, dict_getitem. rewrite Hpred, Hlab.
    cbn [mbind result_bind].
    destruct Hmiss as [[-> ->]|[-> ->]]; [reflexivity|].
    destruct (entropy_constraint (super self)); [|reflexivity].
    destruct (model batch_dict !! "entropy"); reflexivity. }
  split; [apply Hstep|].
  unfold _train_epoch. cbn [train_loop]. by rewrite Hstep.
Qed.
End EpochFacts.

Section RenameFacts.
Context {A B : Type}.
Variable rename : string → string.
Variable wrap : A → B.
Hypothesis rename_inj : Inj (=) (=) rename.

Lemma fold_rename_lookup (l : list (string * A)) (acc : gmap string B) j x :
  NoDup l.*1 →
  foldl (λ acc kv, <[rename kv.1 := wrap kv.2]> acc) acc l !! j = Some x
  ↔ (∃ k v, (k, v) ∈ l ∧ rename k = j ∧ wrap v = x)
    ∨ ((∀ k v, (k, v) ∈ l → rename k ≠ j) ∧ acc !! j = Some x).
Proof.
  revert acc. induction l as [|[k0 v0] l IH]; intros acc Hnd.
  - simpl. split.
    + intros H. right. split; [|done]. intros k v Hin. by apply elem_of_nil in Hin.
    + intros [(k & v & Hin & _)|[_ H]]; [by apply elem_of_nil in Hin | done].
  - simpl in Hnd. apply NoDup_cons in Hnd as [Hk0 Hnd]. cbn [foldl].
    rewrite (IH _ Hnd). simpl. destruct (decide (rename k0 = j)) as [<-|Hne].
    + rewrite lookup_insert_eq. split.
      * intros [(k & v & Hin & Hk & Hx)|[_ [= Hx]]].
        -- left. exists k, v. split; [by apply elem_of_cons; right | done].
        -- left. exists k0, v0. split; [by apply elem_of_cons; left | done].
      * intros [(k & v & Hin & Hk & Hx)|[Hnone _]].
        -- apply elem_of_cons in Hin as [[= -> ->]|Hin].
           ++ right. split; [|by rewrite Hx].
              intros k v Hin Heq. apply rename_inj in Heq as ->.
              apply Hk0, list_elem_of_fmap. by exists (k0, v).
           ++ left. by exists k, v.
        -- exfalso. apply (Hnone k0 v0); [by apply elem_of_cons; left | done].
    + rewrite lookup_insert_ne by done. split.
      * intros [(k & v & Hin & Hk & Hx)|[Hnone Hacc]].
        -- left. exists k, v. split; [by apply elem_of_cons; right | done].
        -- right. split; [|done]. intros k v Hin.
           apply elem_of_cons in Hin as [[= -> ->]|Hin]; [done | by eapply Hnone].
      * intros [(k & v & Hin & Hk & Hx)|[Hnone Hacc]].
        -- apply elem_of_cons in Hin as [[= -> ->]|Hin]; [done|].
           left. by exists k, v.
        -- right. split; [|done]. intros k v Hin.
           apply (Hnone k v). by apply elem_of_cons; right.
Qed.

(** With an injective renaming the comprehension is the map with every
    key renamed. *)
Lemma renamed_kmap (log : gmap string A) :
  renamed rename wrap log = kmap rename (wrap <$> log).
Proof.
  apply map_eq. intros j. apply option_eq. intros x. unfold renamed.
  rewrite fold_rename_lookup by apply NoDup_fst_map_to_list.
  rewrite lookup_kmap_Some by done. split.
  - intros [(k & v & Hin & Hk & Hx)|[_ H]]; [|done].
    apply elem_of_map_to_list in Hin. exists k. split; [done|].
    by rewrite lookup_fmap, Hin, <- Hx.
  - intros (k & -> & Hk). rewrite lookup_fmap in Hk.
    destruct (log !! k) as [v|] eqn:Hv; simplify_eq/=.
    left. exists k, v. split; [by apply elem_of_map_to_list | done].
Qed.

Lemma renamed_lookup (log : gmap string A) k :
  renamed rename wrap log !! rename k = wrap <$> log !! k.
Proof. rewrite renamed_kmap, lookup_kmap by done. by rewrite lookup_fmap. Qed.

Lemma renamed_keys (log : gmap string A) j :
  is_Some (renamed rename wrap log !! j)
  ↔ ∃ k, j = rename k ∧ is_Some (log !! k).
Proof.
  rewrite renamed_kmap, lookup_kmap_is_Some by done.
  by setoid_rewrite lookup_fmap; setoid_rewrite fmap_is_Some.
Qed.

Lemma renamed_size (log : gmap string A) :
  size (renamed rename wrap log) = size log.
Proof.
  rewrite renamed_kmap, <- !length_map_to_list.
  rewrite (map_to_list_kmap rename), length_fmap, !length_map_to_list.
  apply map_size_fmap.
Qed.
End RenameFacts.

Lemma append_inj (prefix : string) : Inj (=) (=) (λ k, prefix +:+ k).
Proof. intros k1 k2 H. by apply (inj (String.app prefix)) in H. Qed.

Section ReportFacts.
Context {num mval embeds : Type}.
Variable metric_funcs : list (metric num mval).
Variable model : batch_dict num → gmap string (list (list num)).
Variable config : Configuration.
Variable get_news_embeds : result embeds.
Variable valid_loader : option embeds → list (batch_dict num).
Variable gather_dict : gmap Z (gmap string mval) → gmap Z (gmap string mval).
Variable average : gmap Z (gmap string mval) → gmap string mval.
Variable topic_evaluation : gmap string mval → gmap string mval.
Variable is_main_process : bool.

(** X14: [evaluate] returns the log of [_valid_epoch] with every key [k]
    moved to [prefix_k]: each metric is found under its prefixed name with
    its value, the log has no other key and no two metrics are merged;
    the weight file is the one [_valid_epoch] leaves. *)
Theorem evaluate_prefixes_log prefix file log file' :
  _valid_epoch metric_funcs model config get_news_embeds valid_loader
    gather_dict average topic_evaluation is_main_process file
  = Ok (log, file') →
  ∃ out,
    evaluate metric_funcs model config get_news_embeds valid_loader
      gather_dict average topic_evaluation is_main_process prefix file
    = Ok (out, file')
    ∧ (∀ k, out !! (prefix +:+ "_" +:+ k) = log !! k)
    ∧ (∀ j, is_Some (out !! j)
            ↔ ∃ k, j = prefix +:+ "_" +:+ k ∧ is_Some (log !! k))
    ∧ size out = size log.
Proof.
  intros Hvalid. unfold evaluate. rewrite Hvalid. cbn [mbind result_bind].
  eexists. split; [reflexivity|].
  assert (Inj (=) (=) (λ k, prefix +:+ "_" +:+ k)) as Hinj.
  { intros k1 k2 H. by do 2 apply append_inj in H. }
  split; [|split].
  - intros k. rewrite (renamed_lookup _ _ Hinj). by destruct (log !! k).
  - intros j. apply (renamed_keys _ _ Hinj).
  - apply (renamed_size _ _ Hinj).
Qed.

(** X15: the log of [_validation] holds the entry "epoch/step" with the
    epoch and the batch index it was called with, and every entry [k] of
    the log of [_valid_epoch] under "val_k"; it has one entry more than
    that log, so the step entry is never overwritten by a metric. *)
Theorem validation_log_entries epoch batch_idx do_monitor file valid_log file' :
  _valid_epoch metric_funcs model config get_news_embeds valid_loader
    gather_dict average topic_evaluation is_main_process file
  = Ok (valid_log, file') →
  ∃ log,
    _validation metric_funcs model config get_news_embeds valid_loader
      gather_dict average topic_evaluation is_main_process epoch batch_idx
      do_monitor file
    = Ok (log, file')
    ∧ log !! "epoch/step" = Some (EpochStep epoch batch_idx)
    ∧ (∀ k, log !! ("val_" +:+ k) = Value <$> valid_log !! k)
    ∧ size log = S (size valid_log).
Proof.
  intros Hvalid. unfold _validation. rewrite Hvalid. cbn [mbind result_bind].
  eexists. split; [reflexivity|].
  pose proof (append_inj "val_") as Hinj.
  assert (renamed (λ k, "val_" +:+ k) (@Value mval) valid_log !! "epoch/step" = None)
    as Hstep.
  { apply eq_None_not_Some. intros H. apply (renamed_keys _ _ Hinj) in H as (k & Hk & _).
    discriminate. }
  unfold update. split; [|split].
  - rewrite lookup_union_r by done. apply lookup_singleton_eq.
  - intros k. rewrite lookup_union_l.
    + apply (renamed_lookup _ _ Hinj).
    + by rewrite lookup_singleton_ne.
  - rewrite map_size_disj_union.
    + rewrite (renamed_size _ _ Hinj), map_size_singleton. lia.
    + by apply map_disjoint_singleton_r.
Qed.
End ReportFacts.

Section SoftmaxMore.
Open Scope R_scope.
Implicit Types (row : list R).

Lemma Rsum_replicate n (c : R) : Rsum (replicate n c) = INR n * c.
Proof.
  induction n as [|n IH]; [simpl; lra|].
  cbn [replicate Rsum foldr]. fold (Rsum (replicate n c)). rewrite IH, S_INR. lra.
Qed.

Lemma map_replicate {A B} (f : A → B) n (x : A) :
  map f (replicate n x) = replicate n (f x).
Proof. induction n as [|n IH]; [done|]. simpl. by rewrite IH. Qed.

Lemma softmax_replicate n (c : R) :
  softmax (replicate n c) = replicate n (1 / INR n).
Proof.
  destruct n as [|n]; [done|].
  unfold softmax. rewrite !map_replicate, Rsum_replicate. f_equal.
  pose proof (exp_pos c). pose proof (pos_INR n). rewrite S_INR.
  field. split; lra.
Qed.

Lemma masked_fill_row_all row (mask : list bool) fill :
  Forall (λ b, b = true) mask →
  masked_fill_row row mask fill = replicate (length row `min` length mask) fill.
Proof.
  intros Hall. revert row. induction Hall as [|b mask -> Hall IH]; intros row.
  - destruct row; simpl; by rewrite ?Nat.min_0_r.
  - destruct row as [|x row]; [done|]. simpl. f_equal. apply IH.
Qed.

Lemma masked_fill_row_none row (mask : list bool) fill :
  Forall (λ b, b = false) mask → length row ≤ length mask →
  masked_fill_row row mask fill = row.
Proof.
  intros Hall. revert row. induction Hall as [|b mask -> Hall IH]; intros row Hlen.
  - destruct row; [done | simpl in Hlen; lia].
  - destruct row as [|x row]; [done|]. simpl in *. f_equal. apply IH. lia.
Qed.

(** The weights of a row are ordered as its logits. *)
Lemma softmax_order row j k wj wk yj yk :
  softmax row !! j = Some wj → softmax row !! k = Some wk →
  row !! j = Some yj → row !! k = Some yk →
  wj <= wk ↔ yj <= yk.
Proof.
  intros Hwj Hwk Hj Hk.
  apply softmax_lookup in Hwj as (y & Hy & ->). rewrite Hj in Hy. simplify_eq.
  apply softmax_lookup in Hwk as (y' & Hy' & ->). rewrite Hk in Hy'. simplify_eq.
  assert (0 < Rsum (map exp row)) as Hpos.
  { apply Rsum_exp_pos. intros ->. done. }
  split.
  - intros Hle. apply (Rmult_le_reg_r (/ Rsum (map exp row))) in Hle;
      [|by apply Rinv_0_lt_compat].
    destruct (Rle_dec y y') as [|Hn]; [done|]. exfalso.
    apply Rnot_le_lt, exp_increasing in Hn. lra.
  - intros Hle. apply Rmult_le_compat_r.
    + left. by apply Rinv_0_lt_compat.
    + destruct Hle as [Hlt| ->]; [left; by apply exp_increasing | right; done].
Qed.
End SoftmaxMore.

Section TopicMore.
Open Scope R_scope.
Variable head_num : nat.
Variable embedding_layer : list (list Z) → tensor3.
Variable dropouts : tensor3 → tensor3.
Variable topic_layer : tensor3 → tensor3.
Variable final : tensor3 → tensor3.

(** X16: a news item whose mask is zero everywhere gets uniform topic
    weights: every head spreads its attention evenly over the padding
    positions (each weight is one over the row length), since all logits
    are filled with the same finite constant. *)
Theorem fully_masked_row_uniform input n h wn row m :
  (extract_topic head_num embedding_layer dropouts topic_layer final input).2 !! n
  = Some wn →
  wn !! h = Some row →
  news_mask input !! n = Some m →
  Forall (λ x, x = 0%Z) m →
  row = replicate (length row) (1 / INR (length row)).
Proof.
  intros Hn Hh Hm Hzero.
  destruct (topic_weight_row _ _ _ _ _ _ _ _ _ _ Hn Hh)
    as (m' & ln & lrow & Hm' & _ & _ & ->).
  rewrite Hm in Hm'. simplify_eq.
  rewrite masked_fill_row_all.
  - rewrite softmax_replicate, length_replicate. done.
  - apply Forall_fmap. eapply Forall_impl; [exact Hzero|].
    intros x ->. done.
Qed.

(** X17: a news item whose mask is nowhere zero is not touched by the
    masking: when the mask covers the token axis, each head's weights are
    the softmax of its logits. *)
Theorem unmasked_row_is_softmax input n h wn row m ln lrow :
  (extract_topic head_num embedding_layer dropouts topic_layer final input).2 !! n
  = Some wn →
  wn !! h = Some row →
  news_mask input !! n = Some m →
  topic_logits head_num embedding_layer dropouts topic_layer input !! n = Some ln →
  ln !! h = Some lrow →
  Forall (λ x, x ≠ 0%Z) m →
  length lrow ≤ length m →
  row = softmax lrow.
Proof.
  intros Hn Hh Hm Hln Hlrow Hnz Hlen.
  destruct (topic_weight_row _ _ _ _ _ _ _ _ _ _ Hn Hh)
    as (m' & ln' & lrow' & Hm' & Hln' & Hlrow' & ->).
  assert (m' = m) as -> by congruence.
  assert (ln' = ln) as -> by congruence.
  assert (lrow' = lrow) as -> by congruence.
  rewrite masked_fill_row_none; [done | |].
  - apply Forall_fmap. eapply Forall_impl; [exact Hnz|].
    intros x Hx. simpl. by apply bool_decide_eq_false_2.
  - by rewrite length_map.
Qed.

(** X18: how the weights of one head compare.  Two non-masked positions
    are weighted in the order of their logits.  A masked position weighs
    no more than a non-masked one exactly when the logit of the latter is
    at least [-1e9]: the fill does not push padding below a token whose
    logit is lower than the constant. *)
Theorem topic_weight_order input n h wn row m ln lrow :
  (extract_topic head_num embedding_layer dropouts topic_layer final input).2 !! n
  = Some wn →
  wn !! h = Some row →
  news_mask input !! n = Some m →
  topic_logits head_num embedding_layer dropouts topic_layer input !! n = Some ln →
  ln !! h = Some lrow →
  ∀ j k wj wk xj xk vj vk,
    row !! j = Some wj → row !! k = Some wk →
    lrow !! j = Some xj → lrow !! k = Some xk →
    m !! j = Some vj → m !! k = Some vk → vk ≠ 0%Z →
    (vj ≠ 0%Z → (wj <= wk ↔ xj <= xk))
    ∧ (vj = 0%Z → (wj <= wk ↔ neg_fill <= xk)).
Proof.
  intros Hn Hh Hm Hln Hlrow j k wj wk xj xk vj vk Hwj Hwk Hxj Hxk Hvj Hvk Hnz.
  destruct (topic_weight_row _ _ _ _ _ _ _ _ _ _ Hn Hh)
    as (m' & ln' & lrow' & Hm' & Hln' & Hlrow' & ->).
  assert (m' = m) as -> by congruence.
  assert (ln' = ln) as -> by congruence.
  assert (lrow' = lrow) as -> by congruence.
  assert (∀ i x v, lrow !! i = Some x → m !! i = Some v →
            masked_fill_row lrow (map (λ x, bool_decide (x = 0%Z)) m) neg_fill !! i
            = Some (if bool_decide (v = 0%Z) then neg_fill else x)) as Hfill.
  { intros i x v Hx Hv. apply masked_fill_row_lookup; [done|].
    by rewrite list_lookup_fmap, Hv. }
  pose proof (Hfill _ _ _ Hxj Hvj) as Hfj. pose proof (Hfill _ _ _ Hxk Hvk) as Hfk.
  rewrite (bool_decide_eq_false_2 _ Hnz) in Hfk.
  split.
  - intros Hvjnz. rewrite (bool_decide_eq_false_2 _ Hvjnz) in Hfj.
    exact (softmax_order _ j k wj wk xj xk Hwj Hwk Hfj Hfk).
  - intros ->. rewrite bool_decide_eq_true_2 in Hfj by done.
    exact (softmax_order _ j k wj wk neg_fill xk Hwj Hwk Hfj Hfk).
Qed.

(** X19: the shape the source notes as (N, H, S).  When the mask has one
    row of [S] entries per news item and the topic layer returns, for each
    of the [N] items, [S] rows, the topic weights have [N] items of
    [head_num] rows of [S] weights. *)
Theorem topic_weight_shape input N S :
  length (news_mask input) = N →
  Forall (λ m, length m = S) (news_mask input) →
  length (topic_layer (dropouts (embedding_layer (news input)))) = N →
  Forall (λ item, length item = S)
    (topic_layer (dropouts (embedding_layer (news input)))) →
  let weights :=
    (extract_topic head_num embedding_layer dropouts topic_layer final input).2 in
  length weights = N
  ∧ Forall (λ wn, length wn = head_num ∧ Forall (λ row, length row = S) wn) weights.
Proof.
  intros HN HS HN' HS'. cbn zeta. unfold extract_topic. cbn [snd].
  set (logits := topic_layer (dropouts (embedding_layer (news input)))) in *.
  split.
  - rewrite length_map. unfold masked_fill, expand_mask.
    rewrite length_zip_with, !length_map. lia.
  - apply Forall_fmap, Forall_forall. intros tn Htn. simpl.
    unfold masked_fill in Htn. apply list_elem_of_lookup in Htn as [n Htn].
    apply lookup_zip_with_Some in Htn as (ln & mn & -> & Hln & Hmn).
    rewrite list_lookup_fmap in Hln.
    destruct (logits !! n) as [item|] eqn:Hitem; simplify_eq/=.
    unfold expand_mask in Hmn. rewrite list_lookup_fmap in Hmn.
    destruct (news_mask input !! n) as [m|] eqn:Hm; simplify_eq/=.
    assert (length item = S) as Hitem'.
    { eapply Forall_forall in HS'; [exact HS'|]. by eapply list_elem_of_lookup_2. }
    assert (length m = length item) as Hm'.
    { rewrite Hitem'. eapply Forall_forall in HS; [exact HS|].
      by eapply list_elem_of_lookup_2. }
    split.
    + rewrite length_map, length_zip_with. unfold transpose.
      rewrite length_map, length_seq, length_replicate. lia.
    + apply Forall_fmap, Forall_forall. intros r Hr. simpl.
      apply list_elem_of_lookup in Hr as [h Hr].
      apply lookup_zip_with_Some in Hr as (lrow & mrow & -> & Hlrow & Hmrow).
      apply lookup_replicate in Hmrow as [-> _].
      unfold transpose in Hlrow. rewrite list_lookup_fmap in Hlrow.
      destruct (seq 0 head_num !! h) as [h'|]; simplify_eq/=.
      unfold softmax, masked_fill_row.
      rewrite length_map, length_zip_with, !length_map. lia.
Qed.
End TopicMore.

(** The sample batches have the shape the loop expects. *)
Lemma ex_batch_ok (return_weight : bool) (first : Z) :
  batch_ok return_weight (ex_batch_at first) (ex_model (ex_batch_at first)).
Proof.
  unfold batch_ok. split; [reflexivity|]. split; [reflexivity|]. split.
  - eexists. split; reflexivity.
  - intros _. split; [reflexivity|]. split; [reflexivity|]. split; [reflexivity|].
    unfold ex_model. apply map_Forall_insert_2; [intros _; reflexivity|].
    apply map_Forall_insert_2; [intros _; reflexivity|]. apply map_Forall_empty.
Qed.

Lemma ex_loader_ok (return_weight : bool) :
  Forall (λ b, batch_ok return_weight b (ex_model b)) ex_valid_loader.
Proof.
  unfold ex_valid_loader.
  do 3 (constructor; [apply ex_batch_ok|]). constructor.
Qed.

Lemma metric_args_prefixes_witness :
  ∃ l' p', metric_args ex_batch ex_pred 1 = Ok (l', p')
    ∧ l' `prefix_of` [0; 1; 0; 0]%Z ∧ p' `prefix_of` [1; 8; 0; 0]%Z.
Proof.
  destruct (metric_args_prefixes ex_batch ex_pred 1 [0; 1; 0; 0]%Z [1; 8; 0; 0]%Z 2%Z)
    as (l' & p' & Hargs & Hl & Hp & _); [reflexivity | reflexivity | reflexivity|].
  exists l', p'. auto.
Defined.

Lemma validate_batch_results_witness :
  ∃ st', validate_batch ex_metrics true ex_model (ex_batch_at 0) initial_state = Ok st'
    ∧ dom (result_dict st')
      = dom (result_dict (@initial_state Z Z))
        ∪ list_to_set (impression_index (ex_batch_at 0)).
Proof.
  destruct (validate_batch_results ex_metrics ex_model true (ex_batch_at 0)
              initial_state (ex_batch_ok true 0)) as (st' & Hst & Hdom & _).
  exists st'. auto.
Defined.

Lemma validate_batch_weights_witness :
  ∃ st', validate_batch ex_metrics true ex_model (ex_batch_at 0) initial_state = Ok st'
    ∧ ∀ k, k ∈ @saved_fields →
        (length (weight_dict st' !!! k)
         = length (weight_dict (@initial_state Z Z) !!! k) + 2)%nat.
Proof.
  destruct (validate_batch_weights ex_metrics ex_model (ex_batch_at 0)
              initial_state (ex_batch_ok true 0)) as (st' & Hst & _ & Hlen).
  exists st'. auto.
Defined.

Lemma valid_epoch_without_export_witness :
  ∃ results : gmap Z (gmap string Z),
    _valid_epoch ex_metrics ex_model default_config (Ok ()) ex_loader ex_gather
      ex_average ex_topic_evaluation true None
    = Ok (ex_average results, None)
    ∧ dom results = list_to_set (all_indices ex_valid_loader).
Proof.
  destruct (valid_epoch_without_export ex_metrics ex_model default_config (Ok ())
              ex_loader ex_gather ex_average ex_topic_evaluation true None (Some ())
              eq_refl eq_refl (ex_loader_ok false)) as (results & Hv & Hd).
  exists results. auto.
Defined.

Lemma valid_epoch_first_export_witness :
  ∃ (results : gmap Z (gmap string Z)) eval_result saved,
    _valid_epoch ex_metrics ex_model export_config (Ok ()) ex_loader ex_gather
      ex_average ex_topic_evaluation true None
    = Ok (eval_result, Some saved)
    ∧ dom results = list_to_set (all_indices (take 2 ex_valid_loader))
    ∧ ∀ k, k ∈ @saved_fields → length (saved !!! k) = 4%nat.
Proof.
  destruct (valid_epoch_first_export ex_metrics ex_model export_config (Ok ())
              ex_loader ex_gather ex_average ex_topic_evaluation true None
              eq_refl eq_refl eq_refl (ex_loader_ok true))
    as (results & eval_result & saved & Hv & _ & Hd & Hlen).
  exists results, eval_result, saved. auto.
Defined.

Lemma missing_pred_aborts_validation_witness :
  _valid_epoch ex_metrics ex_model_nopred default_config (Ok ()) ex_loader
    ex_gather ex_average ex_topic_evaluation true None
  = Raise KeyError.
Proof.
  apply (missing_pred_aborts_validation ex_metrics ex_model_nopred default_config
           (Ok ()) ex_loader ex_gather ex_average ex_topic_evaluation true None (Some ())
           (ex_batch_at 0) [ex_batch_at 2; ex_batch_at 4]); reflexivity.
Defined.

Lemma saves_accumulate_newest_first_witness :
  ∃ saved, save_all [dump_A; dump_B; dump_C] None = Ok (Some saved)
    ∧ dom saved = dom dump_C
    ∧ ∀ k, k ∈ dom saved → saved !!! k = newest_first [dump_A; dump_B; dump_C] k.
Proof.
  apply (saves_accumulate_newest_first dump_A [dump_B; dump_C]).
  simpl. repeat split; apply (bool_decide_unpack _); vm_compute; exact I.
Defined.

Lemma interval_schedule_witness :
  ∃ trace, _train_epoch Z.add Z.mul ex_train_model ex_criterion ex_trainer 1
             (replicate 100 ex_train_batch) = Ok trace
    ∧ validations trace
      = ((λ k, (k, true)) <$> interval_points 20 100 0 100) ++ [(100%Z, false)].
Proof.
  destruct (interval_schedule Z.add Z.mul ex_train_model ex_criterion ex_trainer 1
              (replicate 100 ex_train_batch) 20%Z) as (trace & Ht & Hv & _).
  - reflexivity.
  - lia.
  - simpl. lia.
  - apply Forall_replicate. intros epoch batch_idx. eexists. reflexivity.
  - right. simpl. lia.
  - exists trace. auto.
Defined.

Lemma early_stop_runs_one_more_witness :
  ∃ trace, _train_epoch Z.add Z.mul ex_train_model ex_criterion ex_trainer_short 1
             (replicate 5 ex_train_batch) = Ok trace
    ∧ List.length (backward_losses trace) = 3%nat
    ∧ set_steps trace = [0; 1; 2]%Z.
Proof.
  destruct (early_stop_runs_one_more Z.add Z.mul ex_train_model ex_criterion
              ex_trainer_short 1 (replicate 5 ex_train_batch) 1%Z)
    as (trace & Ht & Hb & Hs & _).
  - reflexivity.
  - lia.
  - simpl. lia.
  - apply Forall_replicate. intros epoch batch_idx. eexists. reflexivity.
  - simpl. lia.
  - exists trace. auto.
Defined.

Lemma zero_divisor_aborts_epoch_witness :
  _train_epoch Z.add Z.mul ex_train_model ex_criterion ex_trainer_nolog 1
    [ex_train_batch; ex_train_batch]
  = Raise ZeroDivisionError.
Proof.
  apply (zero_divisor_aborts_epoch Z.add Z.mul ex_train_model ex_criterion
           ex_trainer_nolog 1 ex_train_batch [ex_train_batch]).
  - intros epoch batch_idx. eexists. reflexivity.
  - left. reflexivity.
Defined.

Lemma train_step_needs_outputs_witness :
  train_step Z.add Z.mul ex_train_model_nokl ex_criterion ex_trainer 1 0 ex_train_batch
  = Raise KeyError
  ∧ _train_epoch Z.add Z.mul ex_train_model_nokl ex_criterion ex_trainer 1
      [ex_train_batch]
    = Raise KeyError.
Proof.
  apply (train_step_needs_outputs Z.add Z.mul ex_train_model_nokl ex_criterion
           ex_trainer 1 0 ex_train_batch 2%Z 3%Z []);
    [reflexivity | reflexivity | right; split; reflexivity].
Defined.

Lemma evaluate_prefixes_log_witness :
  ∃ out,
    evaluate ex_metrics ex_model default_config (Ok ()) ex_loader ex_gather ex_average ex_topic_evaluation
      true "test" None
    = Ok (out, None)
    ∧ ∀ k, out !! ("test" +:+ "_" +:+ k) = ex_average (gset_to_gmap ∅ {[0; 1; 2; 3; 4; 5]}%Z) !! k.
Proof.
  destruct (evaluate_prefixes_log ex_metrics ex_model default_config (Ok ())
              ex_loader ex_gather ex_average ex_topic_evaluation true "test" None
              {[ "impressions" := 6%Z ]} None) as (out & He & Hl & _).
  - vm_compute. reflexivity.
  - exists out. split; [exact He|]. intros k. rewrite Hl. vm_compute. reflexivity.
Defined.

Lemma validation_log_entries_witness :
  ∃ log,
    _validation ex_metrics ex_model default_config (Ok ()) ex_loader ex_gather ex_average ex_topic_evaluation
      true 1 19 true None
    = Ok (log, None)
    ∧ log !! "epoch/step" = Some (EpochStep 1 19)
    ∧ size log = 2%nat.
Proof.
  destruct (validation_log_entries ex_metrics ex_model default_config (Ok ())
              ex_loader ex_gather ex_average ex_topic_evaluation true 1 19 true None
              {[ "impressions" := 6%Z ]} None) as (log & Hv & Hs & _ & Hsize).
  - vm_compute. reflexivity.
  - exists log. auto.
Defined.

Lemma fully_masked_row_uniform_witness :
  let row := softmax (masked_fill_row [IZR 2; IZR 7] [true; true] neg_fill) in
  row = replicate (length row) (1 / INR (length row))%R.
Proof.
  apply (fully_masked_row_uniform 1 ex_embedding_layer ex_identity ex_identity
           ex_identity ex_input_masked 0 0
           [softmax (masked_fill_row [IZR 2; IZR 7] [true; true] neg_fill)]
           (softmax (masked_fill_row [IZR 2; IZR 7] [true; true] neg_fill))
           [0; 0]%Z);
    [reflexivity | reflexivity | reflexivity | repeat constructor].
Defined.

Lemma unmasked_row_is_softmax_witness :
  softmax (masked_fill_row [IZR 2; IZR 7] [false; false] neg_fill)
  = softmax [IZR 2; IZR 7].
Proof.
  apply (unmasked_row_is_softmax 1 ex_embedding_layer ex_identity ex_identity
           ex_identity ex_input_unmasked 0 0
           [softmax (masked_fill_row [IZR 2; IZR 7] [false; false] neg_fill)]
           (softmax (masked_fill_row [IZR 2; IZR 7] [false; false] neg_fill))
           [1; 1]%Z [[IZR 2; IZR 7]] [IZR 2; IZR 7]);
    [reflexivity | reflexivity | reflexivity | reflexivity | reflexivity
    | repeat constructor; discriminate | simpl; lia].
Defined.

Lemma topic_weight_order_witness :
  (exp neg_fill / Rsum (map exp [IZR 2; neg_fill])
   <= exp (IZR 2) / Rsum (map exp [IZR 2; neg_fill])
   ↔ neg_fill <= IZR 2)%R.
Proof.
  apply (topic_weight_order 1 ex_embedding_layer ex_identity ex_identity
           ex_identity ex_input 0 0
           [softmax (masked_fill_row [IZR 2; IZR 7] [false; true] neg_fill)]
           (softmax (masked_fill_row [IZR 2; IZR 7] [false; true] neg_fill))
           [1; 0]%Z [[IZR 2; IZR 7]] [IZR 2; IZR 7]
           eq_refl eq_refl eq_refl eq_refl eq_refl
           1 0 _ _ (IZR 7) (IZR 2) 0%Z 1%Z
           eq_refl eq_refl eq_refl eq_refl eq_refl eq_refl);
    [discriminate | reflexivity].
Defined.

Lemma topic_weight_shape_witness :
  let weights :=
    (extract_topic 1 ex_embedding_layer ex_identity ex_identity ex_identity
       ex_input).2 in
  length weights = 1%nat
  ∧ Forall (λ wn, length wn = 1%nat ∧ Forall (λ row, length row = 2%nat) wn) weights.
Proof.
  apply (topic_weight_shape 1 ex_embedding_layer ex_identity ex_identity
           ex_identity ex_input 1 2);
    [reflexivity | repeat constructor | reflexivity | repeat constructor].
Defined.

(** * The loop-level statement of the truncation, and the topic weights *)

Import Masks.

Section LoopResults.
Context {num mval : Type}.
Variable metric_funcs : list (metric num mval).
Variable model : batch_dict num → gmap string (list (list num)).
Implicit Types (batch : batch_dict num) (st : loop_state num mval)
  (batches : list (batch_dict num)).

(** With distinct impression indices, every row of every batch that is
    run has its own entry at the end. *)
Lemma validate_batches_lookup return_weight batches st :
  Forall (λ b, batch_ok return_weight b (model b)) batches →
  NoDup (all_indices batches) →
  ∃ st', validate_batches metric_funcs return_weight model batches st = Ok st'
    ∧ (∀ index, index ∉ all_indices batches →
         result_dict st' !! index = result_dict st !! index)
    ∧ ∀ vi batch i index,
        batches !! vi = Some batch → impression_index batch !! i = Some index →
        result_dict st' !! index
        = Some (row_result metric_funcs batch (model batch !!! "pred") i).
Proof.
  intros Hok. revert st. induction Hok as [|b batches Hb Hrest IH]; intros st Hnd.
  - exists st. split; [done|]. split; [done|]. intros vi batch i index Hvi. done.
  - unfold all_indices in Hnd. rewrite bind_cons in Hnd.
    apply NoDup_app in Hnd as (Hnd1 & Hdisj & Hnd2).
    cbn [validate_batches].
    destruct (validate_batch_ok metric_funcs model return_weight b st Hb)
      as (st1 & -> & Hr1 & _).
    cbn [mbind result_bind].
    destruct (IH st1 Hnd2) as (st' & -> & Hother & Hrows).
    pose proof Hb as (Hlen & _).
    exists st'. split; [done|]. split.
    + intros index Hnot. unfold all_indices in Hnot.
      rewrite bind_cons, not_elem_of_app in Hnot. destruct Hnot as [Hn1 Hn2].
      rewrite (Hother index Hn2), Hr1. apply fold_store_other.
      by rewrite <- Hlen, lookup_total_seq.
    + intros vi batch i index Hvi Hi. destruct vi as [|vi]; simplify_eq/=.
      * assert (index ∉ all_indices batches) as Hn2.
        { apply Hdisj. by eapply list_elem_of_lookup_2. }
        rewrite (Hother index Hn2), Hr1.
        assert (i < length (impression_index batch)) as Hlt
          by by eapply lookup_lt_Some.
        rewrite <- (list_lookup_total_correct _ _ _ Hi).
        apply (fold_store_last (λ i, impression_index batch !!! i) _ _ _ i i).
        -- apply lookup_seq_lt. lia.
        -- intros k' j Hk' Hj. apply lookup_seq in Hj as [-> Hj]. simpl.
           rewrite (list_lookup_total_correct _ _ _ Hi). intros Heq.
           assert (impression_index batch !! k' = Some index) as Hk.
           { rewrite <- Heq. apply list_lookup_lookup_total_lt. lia. }
           pose proof (NoDup_lookup _ _ _ _ Hnd1 Hi Hk). lia.
      * by eapply Hrows.
Qed.

(** C1: in the impression loop, every row of every batch that is run has
    the registered metrics applied to its label and prediction rows cut to
    the true candidate length.  On a well-shaped loader the loop returns,
    and for each row whose candidate length lies within the padded rows:
    the two arguments of the metrics are the first [can_len[i]] entries of
    [label[i]] and [pred[i]], of length exactly [can_len[i]]; the body of
    the row loop stores under the impression index every registered metric
    applied to these two arrays; and, when the impression indices of the
    batches run are distinct, this is the entry of [result_dict] when the
    loop ends. *)
Theorem metric_inputs_truncated (return_weight : bool) (saved_weight_num : Z)
    (valid_loader : list (batch_dict num)) :
  let run := if return_weight
             then take (Z.to_nat saved_weight_num + 1) valid_loader
             else valid_loader in
  Forall (λ b, batch_ok return_weight b (model b)) run →
  ∃ st',
    impression_loop metric_funcs return_weight saved_weight_num model 0
      valid_loader initial_state = Ok st'
    ∧ ∀ vi batch pred i index lab p cl,
        run !! vi = Some batch →
        model batch !! "pred" = Some pred →
        impression_index batch !! i = Some index →
        label batch !! i = Some lab → pred !! i = Some p →
        candidate_length batch !! i = Some cl →
        (0 ≤ cl ≤ Z.of_nat (length lab))%Z → (cl ≤ Z.of_nat (length p))%Z →
        ∃ l' p',
          metric_args batch pred i = Ok (l', p')
          ∧ l' = take (Z.to_nat cl) lab ∧ p' = take (Z.to_nat cl) p
          ∧ Z.of_nat (length l') = cl ∧ Z.of_nat (length p') = cl
          ∧ (∀ st, ∃ st1,
               impression_row metric_funcs return_weight batch (model batch)
                 pred i st = Ok st1
               ∧ result_dict st1 !! index
                 = Some (apply_metrics metric_funcs l' p' ∅))
          ∧ (NoDup (all_indices run) →
             result_dict st' !! index
             = Some (apply_metrics metric_funcs l' p' ∅)).
Proof.
  intros run Hok.
  assert (impression_loop metric_funcs return_weight saved_weight_num model 0
            valid_loader initial_state
          = validate_batches metric_funcs return_weight model run initial_state)
    as ->.
  { unfold run. destruct return_weight.
    - by rewrite impression_loop_export, Z.sub_0_r.
    - apply impression_loop_no_export. }
  destruct (validate_batches_ok metric_funcs model return_weight run
              initial_state Hok) as (st' & Hst' & _).
  exists st'. split; [done|].
  intros vi batch pred i index lab p cl Hvi Hpred Hi Hl Hp Hc Hlab Hplen.
  assert (row_result metric_funcs batch pred i
          = apply_metrics metric_funcs (slice_to cl lab) (slice_to cl p) ∅)
    as Hrow.
  { unfold row_result.
    by rewrite (list_lookup_total_correct _ _ _ Hl),
      (list_lookup_total_correct _ _ _ Hp), (list_lookup_total_correct _ _ _ Hc). }
  exists (slice_to cl lab), (slice_to cl p).
  split; [by apply metric_args_ok|].
  split; [apply slice_to_take; lia|]. split; [apply slice_to_take; lia|].
  split; [apply slice_to_length; lia|]. split; [apply slice_to_length; lia|].
  split.
  - intros st.
    assert (batch_ok return_weight batch (model batch)) as Hb.
    { eapply Forall_forall in Hok; [exact Hok|]. by eapply list_elem_of_lookup_2. }
    destruct (impression_row_ok metric_funcs return_weight batch (model batch)
                pred i st Hb Hpred) as (st1 & Hst1 & Hr1 & _).
    { by eapply lookup_lt_Some. }
    exists st1. split; [done|].
    rewrite Hr1, (list_lookup_total_correct _ _ _ Hi), lookup_insert_eq.
    by rewrite Hrow.
  - intros Hnd.
    destruct (validate_batches_lookup return_weight run initial_state Hok Hnd)
      as (st'' & Hst'' & _ & Hrows).
    rewrite Hst' in Hst''. simplify_eq.
    rewrite (Hrows vi batch i index Hvi Hi).
    by rewrite (lookup_total_correct _ _ _ Hpred), Hrow.
Qed.
End LoopResults.

(** C1 on the sample loader with weight export and a cap of one: the
    second row of the second batch, candidate length 2 in rows padded to
    3. *)
Lemma metric_inputs_truncated_witness :
  ∃ st', impression_loop ex_metrics true 1 ex_model 0 ex_valid_loader initial_state
         = Ok st'
    ∧ result_dict st' !! 3%Z = Some (apply_metrics ex_metrics [0; 1]%Z [0; 1]%Z ∅).
Proof.
  destruct (metric_inputs_truncated ex_metrics ex_model true 1 ex_valid_loader)
    as (st' & Hst & Hrows).
  - simpl. do 2 (constructor; [apply ex_batch_ok|]). constructor.
  - destruct (Hrows 1%nat (ex_batch_at 2) [[1; 0; 0]; [0; 1; 0]]%Z 1%nat 3%Z
                [0; 1; 0]%Z [0; 1; 0]%Z 2%Z
                eq_refl eq_refl eq_refl eq_refl eq_refl eq_refl)
      as (l' & p' & _ & -> & -> & _ & _ & _ & Hres); [simpl; lia | simpl; lia|].
    exists st'. split; [exact Hst|]. apply Hres.
    apply (bool_decide_unpack _). vm_compute. exact I.
Defined.

Section MaskedSums.
Open Scope R_scope.
Implicit Types (row : list R) (m : list Z).

Lemma sum_over_split m row :
  (length row ≤ length m)%nat →
  Rsum row = sum_over (non_masked m) row + sum_over (masked_positions m) row.
Proof.
  revert row. induction m as [|v m IH]; intros row Hlen.
  - destruct row; [simpl; lra | simpl in Hlen; lia].
  - destruct row as [|w row]; [simpl; lra|].
    cbn [non_masked masked_positions map sum_over Rsum foldr].
    fold (non_masked m). fold (masked_positions m). fold (Rsum row).
    rewrite (IH row) by (simpl in Hlen; lia).
    destruct (bool_decide (v = 0%Z)); simpl; lra.
Qed.

Lemma sum_over_masked_bounds m row (B : R) :
  0 <= B →
  (∀ j w, m !! j = Some 0%Z → row !! j = Some w → 0 <= w <= B) →
  0 <= sum_over (masked_positions m) row <= INR (masked_count m) * B.
Proof.
  intros HB. revert row. induction m as [|v m IH]; intros row Hw.
  - simpl. unfold masked_count. simpl. lra.
  - destruct row as [|w row].
    + simpl. pose proof (pos_INR (masked_count (v :: m))). nra.
    + cbn [masked_positions map sum_over]. fold (masked_positions m).
      assert (0 <= sum_over (masked_positions m) row <= INR (masked_count m) * B)
        as IHm.
      { apply IH. intros j w' Hj Hw'. apply (Hw (S j) w'); done. }
      unfold masked_count in *. rewrite filter_cons.
      destruct (decide (v = 0%Z)) as [->|Hv].
      * rewrite bool_decide_eq_true_2 by done. cbn [length]. rewrite S_INR.
        pose proof (Hw 0%nat w eq_refl eq_refl). lra.
      * rewrite bool_decide_eq_false_2 by done. lra.
Qed.
End MaskedSums.

Section TopicDistribution.
Open Scope R_scope.
Variable head_num : nat.
Variable embedding_layer : list (list Z) → tensor3.
Variable dropouts : tensor3 → tensor3.
Variable topic_layer : tensor3 → tensor3.
Variable final : tensor3 → tensor3.
Variable user_att_layer : tensor3 → tensor2 * tensor2.
Variable user_encode_gru : tensor3 → tensor3 * tensor3.
Variable user_encode_seq : tensor3 → tensor3.
Variable user_final : tensor3 → tensor3.

(** C8, as the code has it, with floats read as reals.  Take a per-head
    row of the topic weights of [extract_topic] (the same code for every
    variant), whose masked positions are filled with [-1e9] before the
    softmax, and a non-masked position of the row, with logit [x].  Then
    the weights are not negative, every masked position gets at most
    [exp (-1e9 - x)], and the weights of the non-masked positions sum to
    at least [1 - M * exp (-1e9 - x)] and at most 1, [M] being the number
    of masked positions; for [x >= 0] the bound [exp (-1e9 - x)] is at
    most [exp (-1e9)].  The user-topic weights of bi_batm are the
    transposed output of [user_encode_layer] as it is, neither masked nor
    normalised. *)
Theorem topic_weights_nearly_distribution input n h wn row m ln lrow k v x :
  (extract_topic head_num embedding_layer dropouts topic_layer final input).2 !! n
  = Some wn →
  wn !! h = Some row →
  news_mask input !! n = Some m →
  topic_logits head_num embedding_layer dropouts topic_layer input !! n = Some ln →
  ln !! h = Some lrow →
  m !! k = Some v → v ≠ 0%Z → lrow !! k = Some x →
  let bound := exp (neg_fill - x) in
  row = softmax (masked_fill_row lrow (masked_positions m) neg_fill)
  ∧ Forall (λ w, 0 <= w) row
  ∧ (∀ j w, m !! j = Some 0%Z → row !! j = Some w → w <= bound)
  ∧ 1 - INR (masked_count m) * bound <= sum_over (non_masked m) row <= 1
  ∧ (0 <= x → bound <= exp neg_fill)
  ∧ user_encoder "bi_batm" head_num user_att_layer user_encode_gru
      user_encode_seq user_final input
    = Pooled (user_att_layer
                (user_final
                   (matmul (map (transpose head_num)
                              (user_encode_seq (history_news input)))
                      (history_news input)))).1.
Proof.
  intros Hn Hh Hm Hln Hlrow Hk Hv Hx bound.
  destruct (topic_weight_row _ _ _ _ _ _ _ _ _ _ Hn Hh)
    as (m' & ln' & lrow' & Hm' & Hln' & Hlrow' & Hrow).
  assert (m' = m) as -> by congruence.
  assert (ln' = ln) as -> by congruence.
  assert (lrow' = lrow) as -> by congruence.
  fold (masked_positions m) in Hrow.
  assert (Forall (λ w, 0 <= w) row) as Hnonneg.
  { rewrite Hrow. eapply Forall_impl; [apply softmax_pos|].
    intros w Hw. simpl in Hw. lra. }
  assert (∀ j w, m !! j = Some 0%Z → row !! j = Some w → w <= bound) as Hmasked.
  { intros j w Hj Hw. rewrite Hrow in Hw.
    pose proof Hw as Hw'. apply softmax_lookup in Hw' as (y & Hy & _).
    unfold masked_fill_row in Hy. apply lookup_zip_with_Some in Hy
      as (xj & bj & _ & Hxj & _).
    eapply (softmax_filled_bound _ j k); [exact Hw | |].
    - erewrite masked_fill_row_lookup; [|exact Hxj|].
      2:{ unfold masked_positions. rewrite list_lookup_fmap, Hj. reflexivity. }
      by rewrite bool_decide_eq_true_2.
    - erewrite masked_fill_row_lookup; [|exact Hx|].
      2:{ unfold masked_positions. rewrite list_lookup_fmap, Hk. reflexivity. }
      by rewrite bool_decide_eq_false_2. }
  assert (0 <= bound) as Hbound by (left; apply exp_pos).
  split; [exact Hrow|]. split; [exact Hnonneg|]. split; [exact Hmasked|].
  split; [|split; [|reflexivity]].
  - assert (Rsum row = 1) as Hsum.
    { rewrite Hrow. apply softmax_sum. intros Hnil.
      apply (f_equal length) in Hnil. unfold masked_fill_row in Hnil.
      rewrite length_zip_with in Hnil. unfold masked_positions in Hnil.
      rewrite length_map in Hnil.
      apply lookup_lt_Some in Hk, Hx. simpl in Hnil. lia. }
    assert (length row ≤ length m)%nat as Hlen.
    { rewrite Hrow. unfold softmax, masked_fill_row, masked_positions.
      rewrite length_map, length_zip_with, length_map. lia. }
    pose proof (sum_over_split m row Hlen) as Hsplit.
    assert (0 <= sum_over (masked_positions m) row <= INR (masked_count m) * bound)
      as Hms.
    { apply sum_over_masked_bounds; [done|]. intros j w Hj Hw. split.
      - eapply Forall_forall in Hnonneg; [exact Hnonneg|].
        by eapply list_elem_of_lookup_2.
      - by eapply Hmasked. }
    lra.
  - intros Hx0. unfold bound. destruct (Req_dec x 0) as [->|Hne].
    + right. f_equal. lra.
    + left. apply exp_increasing. lra.
Qed.
End TopicDistribution.

(** C8 fails as stated, on three inputs.  In bi_batm, a user layer that
    outputs the logit 0 everywhere gives the user-topic weights 0 and 0,
    which sum to 1 over no choice of positions.  A news item whose mask is
    zero everywhere gets the topic weights 1/2 and 1/2 on its two masked
    positions, and 0 as the sum over its non-masked positions.  With the
    logit [-2e9] at a non-masked position, the masked position next to it
    gets more than half of the weight. *)
Lemma attention_weights_not_always_distribution :
  (user_topic_weight 1 zero_layer (history_news ex_input) = [[[0; 0]]]%R
   ∧ ∀ keep, sum_over keep [0; 0]%R ≠ 1%R)
  ∧ (let row := softmax [neg_fill; neg_fill] in
     (extract_topic 1 ex_embedding_layer ex_identity ex_identity ex_identity
        ex_input_masked).2 = [[row]]
     ∧ row = [1 / 2; 1 / 2]%R
     ∧ sum_over (non_masked [0; 0]%Z) row = 0%R)
  ∧ (let row := softmax [IZR (-2000000000); neg_fill] in
     (extract_topic 1 ex_embedding_layer ex_identity low_layer ex_identity
        ex_input).2 = [[row]]
     ∧ ∃ w, row !! 1%nat = Some w ∧ (1 / 2 < w)%R).
Proof.
  split; [|split].
  - split; [reflexivity|].
    intros keep. destruct keep as [|b1 [|b2 rest]]; simpl.
    + lra.
    + destruct b1; lra.
    + destruct b1, b2, rest; simpl; lra.
  - assert (softmax [neg_fill; neg_fill] = [1 / 2; 1 / 2]%R) as Hrow.
    { change [neg_fill; neg_fill] with (replicate 2 neg_fill).
      rewrite softmax_replicate. simpl. repeat f_equal; lra. }
    cbn zeta. split; [reflexivity|]. split; [exact Hrow|].
    rewrite Hrow. simpl. lra.
  - cbn zeta. split; [reflexivity|]. eexists. split; [reflexivity|].
    assert (exp (IZR (-2000000000)) < exp neg_fill)%R as Hlt.
    { apply exp_increasing. unfold neg_fill. lra. }
    pose proof (exp_pos (IZR (-2000000000))) as Ha. simpl.
    set (a := exp (IZR (-2000000000))) in *. set (b := exp neg_fill) in *.
    apply (Rmult_lt_reg_r (a + (b + 0))); [lra|].
    replace (b / (a + (b + 0)) * (a + (b + 0)))%R with b by (field; lra). lra.
Qed.

(** C8 on the sample news item: one real token with logit 2, one masked
    token. *)
Lemma topic_weights_nearly_distribution_witness :
  (1 - INR 1 * exp (neg_fill - IZR 2)
   <= sum_over [true; false] (softmax [IZR 2; neg_fill]) <= 1)%R.
Proof.
  destruct (topic_weights_nearly_distribution 1 ex_embedding_layer ex_identity
              ex_identity ex_identity ex_att_layer ex_gru zero_layer ex_identity
              ex_input 0 0 [softmax [IZR 2; neg_fill]] (softmax [IZR 2; neg_fill])
              [1; 0]%Z [[IZR 2; IZR 7]] [IZR 2; IZR 7] 0 1%Z (IZR 2)
              eq_refl eq_refl eq_refl eq_refl eq_refl eq_refl)
    as (_ & _ & _ & Hsum & _); [discriminate | reflexivity | exact Hsum].
Defined.
